(** * multi-frame-streaming: the CSV partitioner and the two loaders

    A shallow embedding of
      - [read-file.py]                 (the streaming partitioner),
      - [script/import-clean-data.py]  (the batch loader),
      - [script/import_csv_postgres.py] (the row-by-row loader),
    with the properties of the pipeline proved over it.

    Python [int] is [Z]; a list index and [len] are [nat]; [None] is the
    [None] of [option].  A text is a [string] whose characters are read as
    the code points 0..255.  The [csv] reader, the files and the database
    are outside the scripts: the rows the reader yields are the input, a
    written file is the list of rows handed to the writer, and the database
    is an arbitrary state machine. *)

From Stdlib Require Import ZArith Lia Ascii String.
From stdpp Require Import base option list strings gmap.

Local Open Scope Z_scope.

(** ** Python's text primitives *)

Module Py.

(** Truth value of a text: [not s] holds exactly for the empty text. *)
Definition truthy (s : string) : bool :=
  match s with EmptyString => false | String _ _ => true end.

(** Truth value of [None]-or-text. *)
Definition truthy_opt (o : option string) : bool :=
  match o with None => false | Some s => truthy s end.

Definition code (c : ascii) : N := N_of_ascii c.

(** [str.isspace] on one character: TAB..CR, FS..US, SPACE, NEL and NBSP
    are the whitespace code points below 256. *)
Definition isspace (c : ascii) : bool :=
  let n := code c in
  ((9 <=? n) && (n <=? 13) || (28 <=? n) && (n <=? 32)
   || (n =? 133) || (n =? 160))%N.

Fixpoint lstrip (s : string) : string :=
  match s with
  | EmptyString => EmptyString
  | String c s' => if isspace c then lstrip s' else s
  end.

Fixpoint rstrip (s : string) : string :=
  match s with
  | EmptyString => EmptyString
  | String c s' =>
      match rstrip s' with
      | EmptyString => if isspace c then EmptyString else String c EmptyString
      | r => String c r
      end
  end.

(** [s.strip()] *)
Definition strip (s : string) : string := rstrip (lstrip s).

(** [s.replace(',', '')] *)
Fixpoint replace_comma (s : string) : string :=
  match s with
  | EmptyString => EmptyString
  | String c s' =>
      if Ascii.eqb c "," then replace_comma s' else String c (replace_comma s')
  end.

(** The decimal value of an ASCII digit. *)
Definition digit (c : ascii) : option Z :=
  let n := code c in
  if ((48 <=? n) && (n <=? 57))%N then Some (Z.of_N n - 48) else None.

Definition isdigit (c : ascii) : bool :=
  match digit c with Some _ => true | None => false end.

(** The digits of an integer literal after its first digit: digits, with
    single underscores allowed between two digits. *)
Fixpoint int_digits (acc : Z) (s : string) : option Z :=
  match s with
  | EmptyString => Some acc
  | String c s' =>
      if Ascii.eqb c "_" then
        match s' with
        | EmptyString => None
        | String d s'' =>
            match digit d with
            | Some v => int_digits (10 * acc + v) s''
            | None => None
            end
        end
      else
        match digit c with
        | Some v => int_digits (10 * acc + v) s'
        | None => None
        end
  end.

Definition int_unsigned (s : string) : option Z :=
  match s with
  | EmptyString => None
  | String c s' =>
      match digit c with
      | Some v => int_digits v s'
      | None => None
      end
  end.

Definition int_signed (s : string) : option Z :=
  match s with
  | String "+" s' => int_unsigned s'
  | String "-" s' => Z.opp <$> int_unsigned s'
  | _ => int_unsigned s
  end.

(** The whitespace [int] skips at both ends of its argument: TAB..CR and
    SPACE, and the non-ASCII whitespace NEL and NBSP; FS..US are not
    skipped. *)
Definition int_isspace (c : ascii) : bool :=
  let n := code c in
  ((9 <=? n) && (n <=? 13) || (n =? 32) || (n =? 133) || (n =? 160))%N.

Fixpoint int_lstrip (s : string) : string :=
  match s with
  | EmptyString => EmptyString
  | String c s' => if int_isspace c then int_lstrip s' else s
  end.

Fixpoint int_rstrip (s : string) : string :=
  match s with
  | EmptyString => EmptyString
  | String c s' =>
      match int_rstrip s' with
      | EmptyString =>
          if int_isspace c then EmptyString else String c EmptyString
      | r => String c r
      end
  end.

(** The number of digits of a text; a sign, underscores and blanks are
    not digits. *)
Fixpoint count_digits (s : string) : Z :=
  match s with
  | EmptyString => 0
  | String c s' => (if isdigit c then 1 else 0) + count_digits s'
  end.

(** [sys.get_int_max_str_digits()], the interpreter's default: [int]
    refuses a literal with more digits. *)
Definition int_max_str_digits : Z := 4300.

(** [int(s)] on a text, base ten: [None] stands for [ValueError], which
    [int] raises on a text that is no literal and on a literal of more
    than [int_max_str_digits] digits. *)
Definition int (s : string) : option Z :=
  let literal := int_rstrip (int_lstrip s) in
  if bool_decide (count_digits literal <= int_max_str_digits)
  then int_signed literal
  else None.

(** [str(None)], as an f-string formats [None]. *)
Definition format_opt (o : option string) : string :=
  match o with None => "None" | Some s => s end.

(** The longest prefix of [s] whose characters satisfy [p]. *)
Fixpoint take_while (p : ascii -> bool) (s : string) : string :=
  match s with
  | EmptyString => EmptyString
  | String c s' => if p c then String c (take_while p s') else EmptyString
  end.

(** [s] without the prefix [pre], when it has it. *)
Fixpoint strip_prefix (pre s : string) : option string :=
  match pre, s with
  | EmptyString, _ => Some s
  | String a pre', String b s' =>
      if Ascii.eqb a b then strip_prefix pre' s' else None
  | String _ _, EmptyString => None
  end.

(** A character of the class [[a-z0-9]]. *)
Definition lower_alnum (c : ascii) : bool :=
  let n := code c in
  ((97 <=? n) && (n <=? 122) || (48 <=? n) && (n <=? 57))%N.

(** [re.match(r'video\.([a-z0-9]+)', s)]: group 1 of a match at the start
    of [s]. *)
Definition match_video (s : string) : option string :=
  match strip_prefix "video." s with
  | Some r =>
      let g := take_while lower_alnum r in
      if truthy g then Some g else None
  | None => None
  end.

(** [re.search(r'video\.([a-z0-9]+)', s)]: group 1 of the leftmost match. *)
Fixpoint search_video (s : string) : option string :=
  match match_video s with
  | Some g => Some g
  | None =>
      match s with
      | EmptyString => None
      | String _ s' => search_video s'
      end
  end.

(** [re.search(r'(\d+)', s)]: the leftmost longest run of digits. *)
Fixpoint search_digits (s : string) : option string :=
  match s with
  | EmptyString => None
  | String c s' =>
      if isdigit c then Some (take_while isdigit s) else search_digits s'
  end.

End Py.

(** Exceptions the scripts can meet. *)
Inductive exn : Type :=
| AttributeError
| IndexError
| ValueError
| DatabaseError.

(** ** read-file.py: the partitioner *)

Module ReadFile.

Definition ROWS_PER_FILE : Z := 1000000.

Definition COLUMNS : list (nat * string) :=
  [ (0%nat, "video_url"); (1%nat, "title"); (2%nat, "duration");
    (3%nat, "thumbnail_url"); (4%nat, "embed_code"); (5%nat, "tags");
    (6%nat, "actors"); (7%nat, "views"); (8%nat, "category");
    (9%nat, "quality"); (10%nat, "uploader"); (11%nat, "empty_field");
    (12%nat, "publish_date"); (13%nat, "thumbnail_url_2");
    (14%nat, "status") ].

(** [max(idx for idx, _ in COLUMNS)] *)
Definition max_col_index : nat := max_list (COLUMNS.*1).

(** An output file: its index (which fixes its name) and the rows written
    to it so far, the header row first. *)
Record partition : Type := Partition {
  p_index : Z;
  p_lines : list (list string)
}.

(** The data rows of a partition: what follows the header row. *)
Definition data_rows (p : partition) : list (list string) := tail (p_lines p).

Definition header : list string := COLUMNS.*2.

(** [open_new_file(index)]: a fresh file holding the header row. *)
Definition open_new_file (index : Z) : partition :=
  Partition index [header].

(** [writer.writerow(r)] *)
Definition writerow (p : partition) (r : list string) : partition :=
  Partition (p_index p) (p_lines p ++ [r]).

(** The variables of the loop: the three counters, the files already
    closed (in the order they were closed) and the file being written. *)
Record state : Type := State {
  file_index : Z;
  row_in_file : Z;
  processed : Z;
  closed : list partition;
  fout : partition
}.

(** Lines 30-32 and 43. *)
Definition init : state := State 1 0 0 [] (open_new_file 1).

(** [[row[idx].strip() for idx, _ in COLUMNS]]; [None] is an [IndexError]. *)
Definition cleaned (row : list string) : option (list string) :=
  mapM (fun c : nat * string => Py.strip <$> row !! c.1) COLUMNS.

(** Line 55. *)
Definition wellformed (row : list string) : bool :=
  bool_decide (max_col_index + 1 <= length row)%nat.

(** Line 46. *)
Definition count (st : state) : state :=
  State (file_index st) (row_in_file st) (processed st + 1)
        (closed st) (fout st).

(** Lines 49-53. *)
Definition rotate (cap : Z) (st : state) : state :=
  if bool_decide (cap <= row_in_file st) then
    State (file_index st + 1) 0 (processed st)
          (closed st ++ [fout st]) (open_new_file (file_index st + 1))
  else st.

(** Lines 55-58; [inr e] is an exception leaving the loop. *)
Definition write (st : state) (row : list string) : state + exn :=
  if wellformed row then
    match cleaned row with
    | Some r =>
        inl (State (file_index st) (row_in_file st + 1) (processed st)
                   (closed st) (writerow (fout st) r))
    | None => inr IndexError
    end
  else inl st.

(** One iteration of the loop.  The progress report of lines 60-69 only
    prints; the clock it reads is outside the model. *)
Definition body (cap : Z) (st : state) (row : list string) : state + exn :=
  write (rotate cap (count st)) row.

(** The loop over the rows the reader yields. *)
Fixpoint loop (cap : Z) (st : state) (rows : list (list string))
  : state + exn :=
  match rows with
  | [] => inl st
  | row :: rest =>
      match body cap st row with
      | inl st' => loop cap st' rest
      | inr e => inr e
      end
  end.

(** The whole run, from the initial variables. *)
Definition run (cap : Z) (rows : list (list string)) : state + exn :=
  loop cap init rows.

(** Every value the variables take during the loop, in order: after line
    46, after lines 49-53 and after lines 55-58 of each iteration. *)
Fixpoint points (cap : Z) (st : state) (rows : list (list string))
  : list state :=
  match rows with
  | [] => []
  | row :: rest =>
      let s1 := count st in
      let s2 := rotate cap s1 in
      s1 :: s2 ::
        match write s2 row with
        | inl s3 => s3 :: points cap s3 rest
        | inr _ => []
        end
  end.

(** The files that exist when the run ends: the closed ones and the last
    one, closed on line 71. *)
Definition partitions (st : state) : list partition :=
  closed st ++ [fout st].

(** The number of data rows of each file. *)
Definition sizes (st : state) : list Z :=
  (fun p => Z.of_nat (length (data_rows p))) <$> partitions st.

(** The sum of the data-row counts over all files. *)
Definition written (st : state) : Z := foldr Z.add 0 (sizes st).

(** The number of rows the sanitizer drops. *)
Definition malformed (rows : list (list string)) : Z :=
  Z.of_nat (length (filter (fun r => wellformed r = false) rows)).

End ReadFile.

(** ** Exceptions as values *)

(** The outcome of an expression that may raise. *)
Inductive result (A : Type) : Type :=
| Ok (a : A)
| Raise (e : exn).
Arguments Ok {A} a.
Arguments Raise {A} e.

#[global] Instance result_ret : MRet result := fun A a => Ok a.
#[global] Instance result_bind : MBind result := fun A B f m =>
  match m with Ok a => f a | Raise e => Raise e end.

(** [try: m  except: h] with a bare [except]. *)
Definition try_except {A : Type} (m : result A) (h : result A) : result A :=
  match m with Ok a => Ok a | Raise _ => h end.

(** [int(s)] as an expression: [ValueError] when the text does not parse. *)
Definition int_of (s : string) : result Z :=
  match Py.int s with Some n => Ok n | None => Raise ValueError end.

(** The double quote character, which the markup holds. *)
Definition dq : string := String (ascii_of_nat 34) EmptyString.

(** The f-string of [construct_iframe], at the text [v] put for
    [{video_id}]. *)
Definition iframe_markup (v : string) : string :=
  "<iframe src=" +:+ dq +:+ "https://www.xvideos.com/embedframe/" +:+ v +:+ dq
  +:+ " frameborder=" +:+ dq +:+ "0" +:+ dq
  +:+ " width=" +:+ dq +:+ "510" +:+ dq
  +:+ " height=" +:+ dq +:+ "400" +:+ dq
  +:+ " scrolling=" +:+ dq +:+ "no" +:+ dq
  +:+ " allowfullscreen=" +:+ dq +:+ "allowfullscreen" +:+ dq
  +:+ "></iframe>".

(** ** script/import-clean-data.py: the batch loader *)

Module ImportCleanData.

(** Lines 33-38. *)
Definition extract_video_id (url : string) : option string :=
  if negb (Py.truthy url) then None else Py.search_video url.

(** Lines 40-44. *)
Definition construct_iframe (video_id : option string) : option string :=
  if negb (Py.truthy_opt video_id) then None
  else Some (iframe_markup (Py.format_opt video_id)).

(** Lines 46-51. *)
Definition parse_duration (duration_str : string) : result (option Z) :=
  if negb (Py.truthy duration_str) then Ok None
  else
    match Py.search_digits duration_str with
    | Some g => n ← int_of g; Ok (Some n)
    | None => Ok None
    end.

(** Lines 53-60. *)
Definition parse_views (views_str : string) : result Z :=
  if negb (Py.truthy views_str) then Ok 0
  else try_except (int_of (Py.strip (Py.replace_comma views_str))) (Ok 0).

(** The tuple appended to the batch (lines 250-263), in the column order
    of the INSERT statement. *)
Record MediaRecord : Type := Media {
  title : string;
  source_url : string;
  thumbnail_url : string;
  duration : option Z;
  category : string;
  iframe : option string;
  tags : string;
  performers : string;
  quality : string;
  uploader : string;
  publish_date : string;
  views : Z
}.

(** The cursor and the connection, as far as the loader uses them: a state
    of the database, changed by [cursor.executemany(INSERT, batch)] and by
    [conn.commit()], either of which may raise. *)
Class Database (S : Type) : Type := {
  executemany : S -> list MediaRecord -> S * option exn;
  commit : S -> S * option exn
}.

(** A row as [csv.DictReader] yields it: a field is a text, or [None] when
    the line is shorter than the header. *)
Abbreviation row := (gmap string (option string)).

(** The row [csv.DictReader] builds from the header names and the fields
    of a line that is not blank: [dict(zip(fieldnames, fields))], then
    [None] for each name the line has no field for.  (Fields beyond the
    header go under the key [None], which the loader never reads.) *)
Definition dict_row (fieldnames fields : list string) : row :=
  foldl (fun (d : row) kv => <[kv.1 := kv.2]> d) ∅
        (zip fieldnames
             ((Some <$> fields)
                ++ replicate (length fieldnames - length fields) None)).

(** The rows [csv.DictReader] yields for the lines of a file, each line
    given as the list of its fields, [[]] for a blank line: the first line
    holds the field names, and a blank line among the others yields no row
    ([while row == []: row = next(self.reader)]). *)
Definition dict_reader (lines : list (list string)) : list row :=
  match lines with
  | [] => []
  | fieldnames :: rest =>
      dict_row fieldnames <$> filter (fun fields => fields <> []) rest
  end.

(** [row.get(key, '').strip()]; stripping [None] is an [AttributeError]. *)
Definition get_strip (r : row) (key : string) : result string :=
  match default (Some EmptyString) (r !! key) with
  | Some s => Ok (Py.strip s)
  | None => Raise AttributeError
  end.

(** Lines 215-263, up to the tuple to append: [Ok None] is a row left by
    [skipped += 1; continue], [Raise] a row left by an exception. *)
Definition derive (r : row) : result (option MediaRecord) :=
  video_url ← get_strip r "video_url";
  title ← get_strip r "title";
  duration_str ← get_strip r "duration";
  thumbnail_url ← get_strip r "thumbnail_url";
  embed_code ← get_strip r "embed_code";
  tags ← get_strip r "tags";
  actors ← get_strip r "actors";
  views_str ← get_strip r "views";
  category ← get_strip r "category";
  quality ← get_strip r "quality";
  uploader ← get_strip r "uploader";
  publish_date ← get_strip r "publish_date";
  thumbnail_url_2 ← get_strip r "thumbnail_url_2";
  if negb (Py.truthy title) || negb (Py.truthy video_url) then Ok None
  else
    let video_id := extract_video_id video_url in
    let iframe := construct_iframe video_id in
    duration ← parse_duration duration_str;
    views ← parse_views views_str;
    let final_thumbnail :=
      if Py.truthy thumbnail_url_2 then thumbnail_url_2 else thumbnail_url in
    if negb (Py.truthy final_thumbnail) then Ok None
    else
      Ok (Some (Media title video_url final_thumbnail duration category
                      iframe tags actors quality uploader publish_date
                      views)).

(** The variables of the loop, the database, and the batches handed to
    [executemany] so far (a record of the calls made, oldest first). *)
Record loader (S : Type) : Type := Loader {
  imported : Z;
  skipped : Z;
  batch : list MediaRecord;
  db : S;
  calls : list (list MediaRecord)
}.
Arguments Loader {S}.
Arguments imported {S}.
Arguments skipped {S}.
Arguments batch {S}.
Arguments db {S}.
Arguments calls {S}.

Definition batch_size : Z := 5000.

Section Loader.
Context {S : Type} `{Database S}.

(** Lines 204-207. *)
Definition start (d : S) : loader S := Loader 0 0 [] d [].

(** [skipped += 1] *)
Definition skip (st : loader S) : loader S :=
  Loader (imported st) (skipped st + 1) (batch st) (db st) (calls st).

(** [batch.append(...)] *)
Definition append (st : loader S) (m : MediaRecord) : loader S :=
  Loader (imported st) (skipped st) (batch st ++ [m]) (db st) (calls st).

(** [cursor.executemany(INSERT, batch); conn.commit();
    imported += len(batch); batch = []], with the exception that left it,
    if any. *)
Definition submit (st : loader S) : loader S * option exn :=
  let called := calls st ++ [batch st] in
  match executemany (db st) (batch st) with
  | (d, Some e) =>
      (Loader (imported st) (skipped st) (batch st) d called, Some e)
  | (d, None) =>
      match commit d with
      | (d', Some e) =>
          (Loader (imported st) (skipped st) (batch st) d' called, Some e)
      | (d', None) =>
          (Loader (imported st + Z.of_nat (length (batch st))) (skipped st)
                  [] d' called, None)
      end
  end.

(** Lines 266-276. *)
Definition flush (bs : Z) (st : loader S) : loader S * option exn :=
  if bool_decide (bs <= Z.of_nat (length (batch st))) then submit st
  else (st, None).

(** The body of the [try] (lines 214-276). *)
Definition row_body (bs : Z) (st : loader S) (r : row)
  : loader S * option exn :=
  match derive r with
  | Raise e => (st, Some e)
  | Ok None => (skip st, None)
  | Ok (Some m) => flush bs (append st m)
  end.

(** One iteration: the body under its handler (lines 278-282). *)
Definition process_row (bs : Z) (st : loader S) (r : row) : loader S :=
  match row_body bs st r with
  | (st', None) => st'
  | (st', Some _) => skip st'
  end.

(** The loop over the rows of one file. *)
Definition process_rows (bs : Z) (st : loader S) (rows : list row)
  : loader S :=
  foldl (process_row bs) st rows.

(** The loop and the last submission (lines 204-303), given the rows the
    reader yields: the pair returned, and the loader at the end.  An
    exception in the last submission reaches the outer handler, which
    returns [(0, 0)]. *)
Definition import_rows (bs : Z) (d : S) (rows : list row)
  : (Z * Z) * loader S :=
  let st := process_rows bs (start d) rows in
  match batch st with
  | [] => ((imported st, skipped st), st)
  | _ :: _ =>
      match submit st with
      | (st', None) => ((imported st', skipped st'), st')
      | (st', Some _) => ((0, 0), st')
      end
  end.

Definition import_csv_file (d : S) (rows : list row) : (Z * Z) * loader S :=
  import_rows batch_size d rows.

End Loader.

End ImportCleanData.

(** ** script/import_csv_postgres.py: the row-by-row loader *)

Module ImportCsvPostgres.

(** Lines 14-17. *)
Definition extract_video_id (url : string) : option string :=
  Py.search_video url.

(** Lines 19-21: the f-string, whatever [video_id] is. *)
Definition construct_iframe (video_id : option string) : string :=
  iframe_markup (Py.format_opt video_id).

(** Lines 23-28. *)
Definition parse_duration (duration_str : string) : result (option Z) :=
  if negb (Py.truthy duration_str) then Ok None
  else
    match Py.search_digits duration_str with
    | Some g => n ← int_of g; Ok (Some n)
    | None => Ok None
    end.

(** Lines 30-34. *)
Definition parse_views (views_str : string) : result Z :=
  if negb (Py.truthy views_str) then Ok 0
  else int_of (Py.replace_comma views_str).

(** The parameters of the INSERT into [video_staging] (line 162). *)
Record Staging : Type := MkStaging {
  sg_url : string;
  sg_title : string;
  sg_duration : string;
  sg_thumbnail_url : string;
  sg_iframe : string;
  sg_tags : string;
  sg_actors : string;
  sg_views : string;
  sg_quality : string;
  sg_category : string;
  sg_empty : string;
  sg_publish_date : string;
  sg_thumbnail_url2 : string;
  sg_unknown : string
}.

(** The parameters of the INSERT into [videos] (line 169). *)
Record Video : Type := MkVideo {
  title : string;
  source_url : string;
  thumbnail_url : string;
  duration : option Z;
  iframe : string;
  tags : string;
  performers : string;
  category : string
}.

Inductive statement : Type :=
| InsertStaging (s : Staging)
| InsertVideos (v : Video).

(** The cursor and the connection, as far as the loader uses them. *)
Class Database (S : Type) : Type := {
  execute : S -> statement -> S * option exn;
  commit : S -> S * option exn
}.

(** [row[i].strip()] *)
Definition item_strip (r : list string) (i : nat) : result string :=
  match r !! i with
  | Some s => Ok (Py.strip s)
  | None => Raise IndexError
  end.

(** Lines 121-169, up to the two tuples to insert: [Ok None] is a row left
    by [skipped += 1; continue], [Raise] a row left by an exception. *)
Definition derive (r : list string) : result (option (Staging * Video)) :=
  if bool_decide (length r < 14)%nat then Ok None
  else
    url ← item_strip r 0;
    title ← item_strip r 1;
    duration_str ← item_strip r 2;
    thumbnail_url ← item_strip r 3;
    iframe_raw ← item_strip r 4;
    tags ← item_strip r 5;
    actors ← item_strip r 6;
    views_str ← item_strip r 7;
    quality ← item_strip r 8;
    category ← item_strip r 9;
    publish_date ← item_strip r 11;
    thumbnail_url2 ← item_strip r 12;
    if negb (Py.truthy title) || negb (Py.truthy url) then Ok None
    else
      let video_id := extract_video_id url in
      if negb (Py.truthy_opt video_id) then Ok None
      else
        let iframe := construct_iframe video_id in
        duration ← parse_duration duration_str;
        views ← parse_views views_str;
        let final_thumbnail :=
          if Py.truthy thumbnail_url2 then thumbnail_url2 else thumbnail_url in
        Ok (Some
              (MkStaging url title duration_str thumbnail_url iframe_raw tags
                         actors views_str quality category EmptyString
                         publish_date thumbnail_url2 EmptyString,
               MkVideo title url final_thumbnail duration iframe tags actors
                       (if Py.truthy category then category else quality))).

(** The variables of the loop, the database, and the statements handed to
    [cursor.execute] so far (a record of the calls made, oldest first). *)
Record loader (S : Type) : Type := Loader {
  imported : Z;
  skipped : Z;
  db : S;
  calls : list statement
}.
Arguments Loader {S}.
Arguments imported {S}.
Arguments skipped {S}.
Arguments db {S}.
Arguments calls {S}.

Section Loader.
Context {S : Type} `{Database S}.

(** Lines 107-108. *)
Definition start (d : S) : loader S := Loader 0 0 d [].

(** [skipped += 1] *)
Definition skip (st : loader S) : loader S :=
  Loader (imported st) (skipped st + 1) (db st) (calls st).

(** [cursor.execute(q)] *)
Definition run_execute (st : loader S) (q : statement)
  : loader S * option exn :=
  match execute (db st) q with
  | (d, e) => (Loader (imported st) (skipped st) d (calls st ++ [q]), e)
  end.

(** Lines 171-175. *)
Definition count_and_commit (st : loader S) : loader S * option exn :=
  let st1 := Loader (imported st + 1) (skipped st) (db st) (calls st) in
  if bool_decide (imported st1 `mod` 1000 = 0) then
    match commit (db st1) with
    | (d, e) => (Loader (imported st1) (skipped st1) d (calls st1), e)
    end
  else (st1, None).

(** The body of the [try] (lines 120-175). *)
Definition row_body (st : loader S) (r : list string)
  : loader S * option exn :=
  match derive r with
  | Raise e => (st, Some e)
  | Ok None => (skip st, None)
  | Ok (Some (sg, v)) =>
      match run_execute st (InsertStaging sg) with
      | (st1, Some e) => (st1, Some e)
      | (st1, None) =>
          match run_execute st1 (InsertVideos v) with
          | (st2, Some e) => (st2, Some e)
          | (st2, None) => count_and_commit st2
          end
      end
  end.

(** One iteration: the body under its handler (lines 177-180). *)
Definition process_row (st : loader S) (r : list string) : loader S :=
  match row_body st r with
  | (st', None) => st'
  | (st', Some _) => skip st'
  end.

(** Lines 106-186, given the rows the reader yields, the header line
    first: the pair returned, and the loader at the end. *)
Definition import_csv_file (d : S) (rows : list (list string))
  : (Z * Z) * loader S :=
  let st := foldl process_row (start d) (tail rows) in
  ((imported st, skipped st), st).

End Loader.

End ImportCsvPostgres.

(** ** Vocabulary of the properties *)

(** A text made of whitespace only. *)
Fixpoint all_space (s : string) : bool :=
  match s with
  | EmptyString => true
  | String c s' => Py.isspace c && all_space s'
  end.

(** The last character of a text. *)
Fixpoint last_char (s : string) : option ascii :=
  match s with
  | EmptyString => None
  | String c EmptyString => Some c
  | String _ s' => last_char s'
  end.

Definition first_char (s : string) : option ascii :=
  match s with EmptyString => None | String c _ => Some c end.

(** [t] is [s] without its leading and trailing whitespace. *)
Definition trim_of (s t : string) : Prop :=
  (exists pre post : string,
      s = pre +:+ t +:+ post /\ all_space pre = true /\ all_space post = true)
  /\ (forall c, first_char t = Some c -> Py.isspace c = false)
  /\ (forall c, last_char t = Some c -> Py.isspace c = false).

(** The value of a text of ASCII digits read in base ten, most significant
    digit first, from the value [acc] of the digits before it; characters
    that are no digits are passed over. *)
Fixpoint decimal (acc : Z) (s : string) : Z :=
  match s with
  | EmptyString => acc
  | String c s' =>
      match Py.digit c with
      | Some v => decimal (10 * acc + v) s'
      | None => decimal acc s'
      end
  end.

(** A text of digits and commas. *)
Fixpoint digits_and_commas (s : string) : bool :=
  match s with
  | EmptyString => true
  | String c s' =>
      (Py.isdigit c || Ascii.eqb c ",") && digits_and_commas s'
  end.

(** A text that holds a digit. *)
Fixpoint has_digit (s : string) : bool :=
  match s with
  | EmptyString => false
  | String c s' => Py.isdigit c || has_digit s'
  end.

(** A duration [int] can read: the first run of digits of the text, the
    one [\d+] matches, if there is any, has no more digits than [int]
    accepts. *)
Definition readable (s : string) : bool :=
  match Py.search_digits s with
  | Some g => bool_decide (Py.count_digits g <= Py.int_max_str_digits)
  | None => true
  end.

(** [t] occurs in [s]. *)
Definition occurs_in (t s : string) : Prop :=
  exists pre post : string, s = pre +:+ t +:+ post.

Module ReadFileInv.
Import ReadFile.

(** Every file starts with the header row. *)
Definition headed (st : state) : Prop :=
  Forall (fun p => head (p_lines p) = Some header) (partitions st).

(** What holds of the variables of the partitioner between any two
    statements of its loop. *)
Record inv (cap : Z) (st : state) : Prop := Inv {
  inv_range : 0 <= row_in_file st <= cap;
  inv_rows : row_in_file st = Z.of_nat (length (data_rows (fout st)));
  inv_closed :
    Forall (fun p => Z.of_nat (length (data_rows p)) = cap) (closed st);
  inv_index : file_index st = Z.of_nat (length (closed st)) + 1;
  inv_header : headed st
}.

End ReadFileInv.

(** A database that accepts every batch and keeps them. *)
#[global] Instance accepting_batches
  : ImportCleanData.Database (list (list ImportCleanData.MediaRecord)) := {
  ImportCleanData.executemany d b := (d ++ [b], None);
  ImportCleanData.commit d := (d, None)
}.

(** A database that rejects every batch. *)
#[global] Instance rejecting_batches : ImportCleanData.Database unit := {
  ImportCleanData.executemany d b := (d, Some DatabaseError);
  ImportCleanData.commit d := (d, None)
}.

(** A database that accepts every statement and keeps them. *)
#[global] Instance accepting_statements
  : ImportCsvPostgres.Database (list ImportCsvPostgres.statement) := {
  ImportCsvPostgres.execute d q := (d ++ [q], None);
  ImportCsvPostgres.commit d := (d, None)
}.

(** Sample rows of the partitioner: a line of fifteen fields, the second
    one padded with blanks, and a line of two fields. *)
Definition sample_row : list string :=
  ["https://site/video.abc123"; "  X "; "1305 sec"; EmptyString;
   EmptyString; "a,b"; EmptyString; "1,234,567"; "cat"; "hd"; "up";
   EmptyString; "2020"; "https://t/img.jpg"; "ok"].

Definition short_row : list string := ["a"; "b"].

(** A stream of 2,500,000 empty lines. *)
Definition empty_lines : list (list string) :=
  replicate (Z.to_nat 2500000) [].

(** The test a row must pass to be loaded: title, URL and resolved
    thumbnail are non-empty. *)
Definition gate (title url thumbnail thumbnail_2 : string) : bool :=
  Py.truthy title && Py.truthy url
  && Py.truthy (if Py.truthy thumbnail_2 then thumbnail_2 else thumbnail).

(** A line of the row-by-row loader, in its own layout of fourteen fields,
    with a title and a URL and no thumbnail at all. *)
Definition line_without_thumbnail : list string :=
  ["https://site/video.abc123"; "X"; EmptyString; EmptyString; EmptyString;
   EmptyString; EmptyString; EmptyString; EmptyString; EmptyString;
   EmptyString; EmptyString; EmptyString; EmptyString].

(** A line of the row-by-row loader with the secondary thumbnail only. *)
Definition line_with_secondary : list string :=
  ["https://site/video.abc123"; "X"; EmptyString; EmptyString; EmptyString;
   EmptyString; EmptyString; EmptyString; EmptyString; EmptyString;
   EmptyString; EmptyString; "https://t/img.jpg"; EmptyString].



(** The cleaned rows of the well-formed lines of a stream, in the order
    of the stream. *)
Definition kept_rows (rows : list (list string)) : list (list string) :=
  omap (fun r => if ReadFile.wellformed r then ReadFile.cleaned r else None)
       rows.

(** The data rows of all the files, in the order of the files. *)
Definition all_data_rows (st : ReadFile.state) : list (list string) :=
  concat (ReadFile.data_rows <$> ReadFile.partitions st).

(** A text whose characters all satisfy [p]. *)
Fixpoint all_chars (p : ascii -> bool) (s : string) : bool :=
  match s with
  | EmptyString => true
  | String c s' => p c && all_chars p s'
  end.

(** The record a row yields, if it yields one. *)
Definition record_of (r : ImportCleanData.row)
  : option ImportCleanData.MediaRecord :=
  match ImportCleanData.derive r with
  | Ok (Some m) => Some m
  | _ => None
  end.

(** The records the rows of a file yield, in the order of the rows. *)
Definition records_of (rows : list ImportCleanData.row)
  : list ImportCleanData.MediaRecord :=
  omap record_of rows.

(** The files are numbered from 1, in the order they were opened, and
    [file_index] is the number of the file being written. *)
Definition numbered (st : ReadFile.state) : Prop :=
  ReadFile.p_index (ReadFile.fout st) = ReadFile.file_index st /\
  ReadFile.file_index st = Z.of_nat (length (ReadFile.closed st)) + 1 /\
  forall (i : nat) (p : ReadFile.partition),
    ReadFile.closed st !! i = Some p -> ReadFile.p_index p = Z.of_nat i + 1.

(** * Properties *)

(** ** Text *)

Section Text.

Lemma append_cons c (a b : string) : String c a +:+ b = String c (a +:+ b).
Proof. reflexivity. Qed.

Lemma append_empty_l (b : string) : EmptyString +:+ b = b.
Proof. reflexivity. Qed.

Lemma append_empty_r (a : string) : a +:+ EmptyString = a.
Proof.
  induction a as [|x a IH]; [done|]. by rewrite append_cons, IH.
Qed.

Lemma append_assoc (a b c : string) : (a +:+ b) +:+ c = a +:+ (b +:+ c).
Proof.
  induction a as [|x a IH]; [done|]. by rewrite !append_cons, IH.
Qed.

Lemma lstrip_split s :
  exists pre, s = pre +:+ Py.lstrip s /\ all_space pre = true.
Proof.
  induction s as [|c s IH]; simpl.
  - by exists EmptyString.
  - destruct (Py.isspace c) eqn:E.
    + destruct IH as (pre & Hs & Hp). exists (String c pre).
      rewrite append_cons. simpl. rewrite E, Hp, <- Hs. done.
    + by exists EmptyString.
Qed.

Lemma lstrip_first s c :
  first_char (Py.lstrip s) = Some c -> Py.isspace c = false.
Proof.
  induction s as [|a s IH]; simpl; [done|].
  destruct (Py.isspace a) eqn:E; [done|].
  simpl. by intros [= <-].
Qed.

Lemma rstrip_split s :
  exists post, s = Py.rstrip s +:+ post /\ all_space post = true.
Proof.
  induction s as [|c s IH]; simpl.
  - by exists EmptyString.
  - destruct IH as (post & Hs & Hp).
    destruct (Py.rstrip s) as [|a r] eqn:Er.
    + rewrite append_empty_l in Hs. subst post.
      destruct (Py.isspace c) eqn:E.
      * exists (String c s). simpl. by rewrite E, Hp.
      * exists s. by rewrite append_cons.
    + exists post. by rewrite append_cons, <- Hs.
Qed.

Lemma rstrip_last s c :
  last_char (Py.rstrip s) = Some c -> Py.isspace c = false.
Proof.
  revert c. induction s as [|a s IH]; intros c; simpl; [done|].
  destruct (Py.rstrip s) as [|b r] eqn:Er.
  - destruct (Py.isspace a) eqn:E; simpl; [done|]. by intros [= <-].
  - simpl. intros Hc. apply IH. exact Hc.
Qed.

Lemma rstrip_first_inv s c :
  first_char (Py.rstrip s) = Some c -> first_char s = Some c.
Proof.
  destruct s as [|a s]; simpl; [done|].
  destruct (Py.rstrip s); [destruct (Py.isspace a)|]; simpl; congruence.
Qed.

(** [strip] removes the whitespace at both ends, and nothing else. *)
Lemma strip_trim_of s : trim_of s (Py.strip s).
Proof.
  unfold trim_of, Py.strip. split; [|split].
  - destruct (lstrip_split s) as (pre & Hs & Hpre).
    destruct (rstrip_split (Py.lstrip s)) as (post & Hl & Hpost).
    exists pre, post. split; [|done].
    rewrite <- Hl. exact Hs.
  - intros c Hc. apply (lstrip_first s). by apply rstrip_first_inv.
  - apply rstrip_last.
Qed.

End Text.

(** ** The partitioner *)

Module ReadFileFacts.
Import ReadFile ReadFileInv.

Lemma max_col_index_eq : max_col_index = 14%nat.
Proof. reflexivity. Qed.

Lemma columns_in_range c :
  c ∈ COLUMNS -> (c.1 <= max_col_index)%nat.
Proof.
  intros Hc. apply max_list_elem_of_le.
  apply list_elem_of_fmap. by exists c.
Qed.

(** On a row that passes the test of line 55 no index is out of range. *)
Lemma cleaned_wellformed row :
  wellformed row = true -> exists r, cleaned row = Some r.
Proof.
  unfold wellformed, cleaned. intros Hw%bool_decide_eq_true.
  apply (mapM_is_Some_2 (fun c : nat * string => Py.strip <$> row !! c.1)).
  apply Forall_forall. intros c Hc%columns_in_range.
  apply fmap_is_Some, lookup_lt_is_Some. lia.
Qed.

Lemma cleaned_fields row r :
  cleaned row = Some r ->
  length r = length COLUMNS /\
  forall (k : nat) (c : nat * string),
    COLUMNS !! k = Some c ->
    exists raw, row !! c.1 = Some raw /\ r !! k = Some (Py.strip raw).
Proof.
  unfold cleaned. intros HF%mapM_Some. split.
  - symmetry. eapply Forall2_length, HF.
  - intros k c Hk.
    destruct (Forall2_lookup_l _ _ _ _ _ HF Hk) as (y & Hy & Hf).
    destruct (row !! c.1) as [raw|] eqn:Hraw; simpl in Hf; [|done].
    exists raw. split; [done|]. congruence.
Qed.

Lemma write_wellformed st row :
  wellformed row = true ->
  exists r, cleaned row = Some r /\
    write st row =
      inl (State (file_index st) (row_in_file st + 1) (processed st)
                 (closed st) (writerow (fout st) r)).
Proof.
  intros Hw. destruct (cleaned_wellformed row Hw) as [r Hr].
  exists r. split; [done|]. unfold write. by rewrite Hw, Hr.
Qed.

Lemma write_malformed st row :
  wellformed row = false -> write st row = inl st.
Proof. intros Hw. unfold write. by rewrite Hw. Qed.

(** No iteration raises. *)
Lemma write_total st row : exists st', write st row = inl st'.
Proof.
  destruct (wellformed row) eqn:Hw.
  - destruct (write_wellformed st row Hw) as (r & _ & ->). eauto.
  - rewrite write_malformed by done. eauto.
Qed.

Lemma body_total cap st row : exists st', body cap st row = inl st'.
Proof. apply write_total. Qed.

Lemma loop_total cap rows : forall st, exists st', loop cap st rows = inl st'.
Proof.
  induction rows as [|row rows IH]; intros st; simpl; [eauto|].
  destruct (body_total cap st row) as [st' ->]. apply IH.
Qed.

Lemma loop_app cap rows1 rows2 st st1 :
  loop cap st rows1 = inl st1 ->
  loop cap st (rows1 ++ rows2) = loop cap st1 rows2.
Proof.
  revert st. induction rows1 as [|row rows1 IH]; intros st; simpl.
  - by intros [= ->].
  - destruct (body cap st row) as [st'|e]; [apply IH | done].
Qed.

(** *** The invariant *)

Lemma headed_init : headed init.
Proof. unfold headed, partitions. simpl. by repeat constructor. Qed.

Lemma headed_count st : headed st -> headed (count st).
Proof. done. Qed.

Lemma headed_rotate cap st : headed st -> headed (rotate cap st).
Proof.
  unfold rotate, headed, partitions. case_bool_decide; [|done]. simpl.
  intros Hh. apply Forall_app. split; [done|]. by repeat constructor.
Qed.

Lemma head_writerow p r :
  head (p_lines p) = Some header ->
  head (p_lines (writerow p r)) = Some header.
Proof. destruct p as [i [|h l]]; simpl; [done|]. done. Qed.

Lemma data_rows_writerow p r :
  head (p_lines p) = Some header ->
  data_rows (writerow p r) = data_rows p ++ [r].
Proof. destruct p as [i [|h l]]; simpl; [done|]. done. Qed.

Lemma headed_fout st : headed st -> head (p_lines (fout st)) = Some header.
Proof.
  unfold headed, partitions. intros Hh%Forall_app. destruct Hh as [_ Hh].
  by inversion Hh.
Qed.

Lemma headed_write st row st' :
  headed st -> write st row = inl st' -> headed st'.
Proof.
  intros Hh. destruct (wellformed row) eqn:Hw.
  - destruct (write_wellformed st row Hw) as (r & _ & ->). intros [= <-].
    pose proof (headed_fout st Hh) as Hf.
    unfold headed, partitions in *. simpl.
    apply Forall_app in Hh as [Hc _]. apply Forall_app. split; [done|].
    constructor; [|done]. by apply head_writerow.
  - rewrite write_malformed by done. by intros [= <-].
Qed.

Lemma inv_init cap : 0 < cap -> inv cap init.
Proof.
  intros Hcap. split; simpl; [lia | done | done | done | apply headed_init].
Qed.

Lemma inv_count cap st : inv cap st -> inv cap (count st).
Proof. intros [? ? ? ? ?]. by split. Qed.

(** After the rotation test the current file has room for one more row. *)
Lemma inv_rotate cap st :
  0 < cap -> inv cap st ->
  inv cap (rotate cap st) /\ row_in_file (rotate cap st) < cap.
Proof.
  intros Hcap Hinv. pose proof Hinv as [Hr Hrows Hc Hi Hh].
  unfold rotate. case_bool_decide as Hfull; [|split; [done | lia]].
  split; [|simpl; lia]. split; simpl.
  - lia.
  - done.
  - apply Forall_app. split; [done|]. constructor; [|done]. lia.
  - rewrite length_app. simpl. lia.
  - by apply (headed_rotate cap st) in Hh; unfold rotate in Hh;
      rewrite bool_decide_eq_true_2 in Hh.
Qed.

Lemma inv_write cap st row st' :
  inv cap st -> row_in_file st < cap ->
  write st row = inl st' -> inv cap st'.
Proof.
  intros Hinv Hroom Hwr. pose proof Hinv as [Hr Hrows Hc Hi Hh].
  pose proof (headed_write st row st' Hh Hwr) as Hh'.
  destruct (wellformed row) eqn:Hw.
  - destruct (write_wellformed st row Hw) as (r & _ & Heq).
    rewrite Heq in Hwr. injection Hwr as <-.
    split; simpl; [lia | | done | done | done].
    rewrite data_rows_writerow by by apply headed_fout.
    rewrite length_app. simpl. lia.
  - rewrite write_malformed in Hwr by done. by injection Hwr as <-.
Qed.

Lemma inv_body cap st row st' :
  0 < cap -> inv cap st -> body cap st row = inl st' -> inv cap st'.
Proof.
  intros Hcap Hinv Hb. unfold body in Hb.
  destruct (inv_rotate cap (count st) Hcap (inv_count _ _ Hinv)) as [H1 H2].
  by eapply inv_write.
Qed.

Lemma inv_loop cap rows : forall st st',
  0 < cap -> inv cap st -> loop cap st rows = inl st' -> inv cap st'.
Proof.
  induction rows as [|row rows IH]; intros st st' Hcap Hinv; simpl.
  - by intros [= <-].
  - destruct (body cap st row) as [st1|e] eqn:Hb; [|done].
    apply IH; [done|]. by eapply inv_body.
Qed.

(** The invariant holds at every point of the loop. *)
Lemma inv_points cap rows : forall st,
  0 < cap -> inv cap st -> Forall (inv cap) (points cap st rows).
Proof.
  induction rows as [|row rows IH]; intros st Hcap Hinv; simpl; [done|].
  pose proof (inv_count _ _ Hinv) as H1.
  destruct (inv_rotate cap (count st) Hcap H1) as [H2 Hroom].
  constructor; [done|]. constructor; [done|].
  destruct (write (rotate cap (count st)) row) as [s3|e] eqn:Hw; [|done].
  pose proof (inv_write _ _ _ _ H2 Hroom Hw) as H3.
  constructor; [done|]. by apply IH.
Qed.

(** The points end in the state the loop returns. *)
Lemma last_points cap rows : forall st st',
  loop cap st rows = inl st' -> last (st :: points cap st rows) = Some st'.
Proof.
  induction rows as [|row rows IH]; intros st st'; simpl.
  - by intros [= ->].
  - unfold body. destruct (write (rotate cap (count st)) row) as [s3|e] eqn:Hw;
      [|done].
    intros Hl. apply IH in Hl. rewrite !last_cons. rewrite !last_cons in Hl.
    simpl in *. destruct (last (points cap s3 rows)); by simplify_eq.
Qed.

(** *** Accounting *)

Lemma sum_snoc (l : list Z) (x : Z) :
  foldr Z.add 0 (l ++ [x]) = foldr Z.add 0 l + x.
Proof. induction l as [|y l IH]; simpl; lia. Qed.

Lemma written_eq st :
  written st =
    foldr Z.add 0 ((fun p => Z.of_nat (length (data_rows p))) <$> closed st)
    + Z.of_nat (length (data_rows (fout st))).
Proof.
  unfold written, sizes, partitions.
  by rewrite fmap_app, list_fmap_singleton, sum_snoc.
Qed.

Lemma written_rotate cap st : written (rotate cap st) = written st.
Proof.
  unfold rotate. case_bool_decide; [|done].
  rewrite (written_eq st), written_eq. simpl.
  rewrite fmap_app, list_fmap_singleton, sum_snoc. simpl. lia.
Qed.

Lemma write_counts st row st' :
  headed st -> write st row = inl st' ->
  written st' = written st + (if wellformed row then 1 else 0) /\
  processed st' = processed st.
Proof.
  intros Hh. destruct (wellformed row) eqn:Hw.
  - destruct (write_wellformed st row Hw) as (r & _ & ->). intros [= <-].
    rewrite (written_eq st), written_eq. simpl.
    rewrite data_rows_writerow by by apply headed_fout.
    rewrite length_app. simpl. lia.
  - rewrite write_malformed by done. intros [= <-]. lia.
Qed.

Lemma malformed_cons row rows :
  malformed (row :: rows) =
    (if wellformed row then 0 else 1) + malformed rows.
Proof.
  unfold malformed. destruct (wellformed row) eqn:Hw.
  - rewrite filter_cons_False by by rewrite Hw. lia.
  - rewrite filter_cons_True by done. simpl length. lia.
Qed.

Lemma malformed_nonneg rows : 0 <= malformed rows.
Proof. unfold malformed. lia. Qed.

(** Every row read is counted once, and goes to a file or is dropped. *)
Lemma loop_counts cap rows : forall st st',
  headed st -> loop cap st rows = inl st' ->
  written st' + malformed rows = written st + Z.of_nat (length rows) /\
  processed st' = processed st + Z.of_nat (length rows).
Proof.
  induction rows as [|row rows IH]; intros st st' Hh; simpl.
  - intros [= <-]. unfold malformed. simpl. lia.
  - destruct (body cap st row) as [st1|e] eqn:Hb; [|done]. intros Hl.
    unfold body in Hb.
    pose proof (headed_rotate cap _ (headed_count _ Hh)) as Hh2.
    destruct (write_counts _ _ _ Hh2 Hb) as [Hw Hp].
    rewrite written_rotate in Hw.
    assert (processed (rotate cap (count st)) = processed st + 1) as Hp2.
    { unfold rotate. by case_bool_decide. }
    destruct (IH st1 st' (headed_write _ _ _ Hh2 Hb) Hl) as [IH1 IH2].
    rewrite malformed_cons.
    change (written (count st)) with (written st) in Hw.
    destruct (wellformed row); lia.
Qed.

Lemma sum_constant (cap : Z) (l : list Z) :
  Forall (fun x => x = cap) l ->
  foldr Z.add 0 l = cap * Z.of_nat (length l).
Proof. induction 1; simpl; lia. Qed.

(** Under the invariant the files hold [cap] rows each, but the last. *)
Lemma written_inv cap st :
  inv cap st ->
  written st = cap * Z.of_nat (length (closed st)) + row_in_file st.
Proof.
  intros [Hr Hrows Hc Hi Hh]. rewrite written_eq, <- Hrows.
  rewrite (sum_constant cap).
  - by rewrite length_fmap.
  - by apply Forall_fmap.
Qed.

Lemma fmap_constant {A : Type} (f : A -> Z) (cap : Z) (l : list A) :
  Forall (fun p => f p = cap) l -> f <$> l = replicate (length l) cap.
Proof.
  induction 1 as [|p l Hp Hl IH]; [done|].
  rewrite fmap_cons, Hp, IH. done.
Qed.

Lemma sizes_inv cap st :
  inv cap st ->
  sizes st = replicate (length (closed st)) cap ++ [row_in_file st].
Proof.
  intros [Hr Hrows Hc Hi Hh]. unfold sizes, partitions.
  rewrite fmap_app, list_fmap_singleton, <- Hrows.
  by rewrite (fmap_constant _ cap).
Qed.

(** *** Streams of malformed rows and of well-formed rows *)

(** While the current file is not full, a malformed row changes nothing
    but the count of rows read. *)
Lemma loop_malformed cap rows : forall st,
  row_in_file st < cap ->
  Forall (fun r => wellformed r = false) rows ->
  loop cap st rows =
    inl (State (file_index st) (row_in_file st)
               (processed st + Z.of_nat (length rows)) (closed st) (fout st)).
Proof.
  induction rows as [|row rows IH]; intros st Hroom Hbad.
  - simpl. destruct st; simpl. do 2 f_equal. lia.
  - inversion Hbad as [|? ? Hrow Hrest]; subst. simpl loop. unfold body.
    rewrite write_malformed by done. unfold rotate.
    rewrite bool_decide_eq_false_2 by (simpl; lia).
    rewrite IH by done. simpl. do 2 f_equal. lia.
Qed.

(** A well-formed row leaves at least one row in the current file. *)
Lemma loop_wellformed_positive cap rows : forall st st',
  Forall (fun r => wellformed r = true) rows ->
  rows <> [] \/ 1 <= row_in_file st ->
  0 <= row_in_file st ->
  loop cap st rows = inl st' -> 1 <= row_in_file st'.
Proof.
  induction rows as [|row rows IH]; intros st st' Hgood Hne Hpos; simpl.
  - intros [= <-]. by destruct Hne.
  - inversion Hgood as [|? ? Hrow Hrest]; subst. unfold body.
    destruct (write_wellformed (rotate cap (count st)) row Hrow)
      as (r & _ & ->).
    apply IH; [done | | ]; simpl.
    + right. unfold rotate. case_bool_decide; simpl; lia.
    + unfold rotate. case_bool_decide; simpl; lia.
Qed.

Lemma malformed_zero rows :
  malformed rows = 0 -> Forall (fun r => wellformed r = true) rows.
Proof.
  induction rows as [|row rows IH]; [done|].
  rewrite malformed_cons. pose proof (malformed_nonneg rows).
  destruct (wellformed row) eqn:Hw; [|lia].
  intros Hz. constructor; [done|]. apply IH. lia.
Qed.

Lemma malformed_short rows :
  malformed rows =
    Z.of_nat
      (length (filter (fun r => (length r < max_col_index + 1)%nat) rows)).
Proof.
  unfold malformed. f_equal. f_equal. apply list_filter_iff.
  intros r. unfold wellformed. rewrite bool_decide_eq_false. lia.
Qed.

Lemma lookup_partitions st (i : nat) p :
  partitions st !! i = Some p ->
  (S i < length (partitions st))%nat ->
  closed st !! i = Some p.
Proof.
  unfold partitions. rewrite length_app. simpl. intros Hp Hi.
  by rewrite lookup_app_l in Hp by lia.
Qed.

End ReadFileFacts.

Import ReadFile ReadFileInv ReadFileFacts.

(** C2: while the partitioner runs, at every point of its loop, the
    current file holds no more data rows than the cap; and when the run
    ends (it always does, without an error) every file but the last holds
    exactly as many data rows as the cap. *)
Theorem partition_rows_within_cap (cap : Z) (rows : list (list string)) :
  0 < cap ->
  Forall (fun s => row_in_file s <= cap) (init :: points cap init rows) /\
  exists st,
    run cap rows = inl st /\
    last (init :: points cap init rows) = Some st /\
    row_in_file st = Z.of_nat (length (data_rows (fout st))) /\
    forall (i : nat) (p : partition),
      partitions st !! i = Some p ->
      (S i < length (partitions st))%nat ->
      Z.of_nat (length (data_rows p)) = cap.
Proof.
  intros Hcap. split.
  - pose proof (inv_points cap rows init Hcap (inv_init cap Hcap)) as Hpts.
    constructor; [simpl; lia|].
    eapply Forall_impl; [exact Hpts|]. intros s Hs. apply Hs.
  - destruct (loop_total cap rows init) as [st Hst]. exists st.
    pose proof (inv_loop cap rows init st Hcap (inv_init cap Hcap) Hst)
      as Hinv.
    split; [done|]. split; [by apply last_points|].
    split; [apply Hinv|].
    intros i p Hp Hi. apply lookup_partitions in Hp; [|done].
    eapply (proj1 (Forall_lookup _ _) (inv_closed _ _ Hinv)); done.
Qed.

Lemma partition_rows_within_cap_witness :
  0 < ROWS_PER_FILE /\
  Forall (fun s => row_in_file s <= ROWS_PER_FILE)
         (init :: points ROWS_PER_FILE init [sample_row; short_row]).
Proof.
  split; [reflexivity|].
  apply (partition_rows_within_cap ROWS_PER_FILE [sample_row; short_row]).
  reflexivity.
Defined.

(** C4: when the run ends, the data rows of all the files and the
    malformed lines (those with fewer fields than the largest index of the
    schema plus one) together are the lines read. *)
Theorem rows_written_plus_malformed (cap : Z) (rows : list (list string)) :
  exists st,
    run cap rows = inl st /\
    written st
    + Z.of_nat
        (length (filter (fun r => (length r < max_col_index + 1)%nat) rows))
    = processed st /\
    processed st = Z.of_nat (length rows).
Proof.
  destruct (loop_total cap rows init) as [st Hst]. exists st.
  split; [done|].
  destruct (loop_counts cap rows init st headed_init Hst) as [Hw Hp].
  rewrite <- malformed_short. change (written init) with 0 in Hw.
  change (processed init) with 0 in Hp. lia.
Qed.

(** C8: a line with at least as many fields as the largest index of the
    schema plus one is cleaned without any error: the cleaned record has
    one field per column of the schema, in the order of the schema, the
    k-th being the field at the k-th index without its leading and trailing
    whitespace, and it is the row written; a shorter line is dropped, the
    variables and the files left as they were, and no error is raised. *)
Theorem sanitizer_contract (st : state) (row : list string) :
  ((max_col_index + 1 <= length row)%nat ->
   exists r,
     cleaned row = Some r /\
     length r = length COLUMNS /\
     (forall (k : nat) (c : nat * string),
        COLUMNS !! k = Some c ->
        exists raw,
          row !! c.1 = Some raw /\ r !! k = Some (Py.strip raw) /\
          trim_of raw (Py.strip raw)) /\
     write st row =
       inl (State (file_index st) (row_in_file st + 1) (processed st)
                  (closed st) (writerow (fout st) r))) /\
  ((length row < max_col_index + 1)%nat -> write st row = inl st).
Proof.
  split.
  - intros Hlen.
    assert (wellformed row = true) as Hw
      by by apply bool_decide_eq_true_2.
    destruct (write_wellformed st row Hw) as (r & Hr & Hwr).
    exists r. destruct (cleaned_fields row r Hr) as [Hl Hf].
    repeat split; try done.
    intros k c Hk. destruct (Hf k c Hk) as (raw & H1 & H2).
    exists raw. repeat split; try done; apply strip_trim_of.
  - intros Hlen. apply write_malformed.
    apply bool_decide_eq_false_2. lia.
Qed.

Lemma sanitizer_contract_witness :
  (exists r, cleaned sample_row = Some r /\ r !! 1%nat = Some "X") /\
  write init short_row = inl init.
Proof.
  pose proof (sanitizer_contract init sample_row) as [Hgood _].
  pose proof (sanitizer_contract init short_row) as [_ Hbad].
  split.
  - destruct Hgood as (r & Hr & _); [vm_compute; lia|].
    exists r. split; [done|]. vm_compute in Hr. by injection Hr as <-.
  - apply Hbad. vm_compute. lia.
Defined.

Lemma malformed_of_wellformed rows :
  Forall (fun r => wellformed r = true) rows -> malformed rows = 0.
Proof.
  induction 1 as [|row rows Hrow Hrows IH]; [done|].
  rewrite malformed_cons, Hrow, IH. done.
Qed.

(** The state the loop reaches on well-formed rows that fill one file
    exactly. *)
Lemma loop_one_full_file cap good st :
  0 < cap ->
  Z.of_nat (length good) = cap ->
  Forall (fun r => wellformed r = true) good ->
  loop cap init good = inl st ->
  inv cap st /\ closed st = [] /\ row_in_file st = cap /\ file_index st = 1.
Proof.
  intros Hcap Hlen Hgood Hst.
  pose proof (inv_loop cap good init st Hcap (inv_init cap Hcap) Hst) as Hinv.
  destruct (loop_counts cap good init st headed_init Hst) as [Hw _].
  rewrite (malformed_of_wellformed good Hgood) in Hw.
  change (written init) with 0 in Hw.
  rewrite (written_inv cap st Hinv) in Hw.
  assert (1 <= row_in_file st) as Hpos.
  { apply (loop_wellformed_positive cap good init st); try done.
    left. intros ->. simpl in Hlen. lia. }
  pose proof (inv_range _ _ Hinv) as Hr.
  pose proof (inv_index _ _ Hinv) as Hi.
  assert (length (closed st) = 0%nat) as Hc by nia.
  split; [done|]. split; [by apply nil_length_inv|].
  rewrite Hc in *. lia.
Qed.

(** C10: a line read while the current file holds the cap's worth of rows
    closes that file and opens the next one, whether the line is malformed
    or not; so after exactly one cap's worth of well-formed lines followed
    by malformed lines only, the run ends with two files, the second one
    holding the header row and no data row. *)
Theorem rotation_precedes_the_malformed_test
  (cap : Z) (good bad : list (list string)) :
  0 < cap ->
  Z.of_nat (length good) = cap ->
  Forall (fun r => wellformed r = true) good ->
  bad <> [] ->
  Forall (fun r => wellformed r = false) bad ->
  (forall st row,
     cap <= row_in_file st ->
     exists st',
       body cap st row = inl st' /\
       file_index st' = file_index st + 1 /\
       closed st' = closed st ++ [fout st]) /\
  exists st,
    run cap (good ++ bad) = inl st /\
    file_index st = 2 /\
    length (partitions st) = 2%nat /\
    p_lines (fout st) = [header] /\
    data_rows (fout st) = [] /\
    sizes st = [cap; 0].
Proof.
  intros Hcap Hlen Hgood Hne Hbad. split.
  - intros st row Hfull. unfold body, rotate.
    rewrite bool_decide_eq_true_2 by done.
    destruct (wellformed row) eqn:Hw.
    + destruct (write_wellformed
                  (State (file_index (count st) + 1) 0 (processed (count st))
                         (closed (count st) ++ [fout (count st)])
                         (open_new_file (file_index (count st) + 1)))
                  row Hw) as (r & _ & ->).
      eexists. split; [done|]. done.
    + rewrite write_malformed by done. eexists. split; [done|]. done.
  - destruct (loop_total cap good init) as [st1 Hst1].
    destruct (loop_one_full_file cap good st1 Hcap Hlen Hgood Hst1)
      as (Hinv & Hc & Hr & Hi).
    destruct bad as [|b bad']; [done|].
    apply Forall_cons in Hbad as [Hb Hbad'].
    unfold run. rewrite (loop_app cap good (b :: bad') init st1 Hst1).
    simpl loop. unfold body. rewrite write_malformed by done.
    unfold rotate. rewrite bool_decide_eq_true_2 by (simpl; lia).
    rewrite loop_malformed by (simpl; lia || done). simpl.
    eexists. split; [done|]. simpl.
    pose proof (inv_rows _ _ Hinv) as Hrows.
    unfold sizes, partitions. simpl. rewrite Hc, Hi. simpl.
    repeat split; try done. do 2 f_equal. lia.
Qed.

Lemma rotation_precedes_the_malformed_test_witness :
  exists st,
    run 2 ([sample_row; sample_row] ++ [short_row; []]) = inl st /\
    file_index st = 2 /\ data_rows (fout st) = [].
Proof.
  destruct (rotation_precedes_the_malformed_test
              2 [sample_row; sample_row] [short_row; []])
    as (_ & st & Hrun & Hfi & _ & _ & Hdata & _).
  - lia.
  - reflexivity.
  - repeat constructor.
  - discriminate.
  - repeat constructor.
  - exists st. done.
Defined.

(** A stream of malformed lines leaves one file, with no data row. *)
Lemma run_all_malformed cap rows :
  0 < cap ->
  Forall (fun r => wellformed r = false) rows ->
  malformed rows = Z.of_nat (length rows) /\
  exists st, run cap rows = inl st /\ file_index st = 1 /\ sizes st = [0].
Proof.
  intros Hcap Hbad. split.
  - induction Hbad as [|r l Hr Hl IH]; [done|].
    rewrite malformed_cons, Hr, IH. simpl length. lia.
  - unfold run. rewrite loop_malformed by done.
    eexists. split; [reflexivity|]. split; reflexivity.
Qed.

Lemma length_empty_lines : Z.of_nat (length empty_lines) = 2500000.
Proof.
  unfold empty_lines. rewrite length_replicate. apply Z2Nat.id. lia.
Qed.

Lemma empty_lines_malformed :
  Forall (fun r => wellformed r = false) empty_lines.
Proof. unfold empty_lines. apply Forall_replicate. reflexivity. Qed.

(** C6 fails as stated: a stream of 2,500,000 lines that are all malformed
    ends with a single file, not three. *)
Lemma malformed_lines_make_fewer_partitions :
  Z.of_nat (length empty_lines) = 2500000 /\
  malformed empty_lines = 2500000 /\
  exists st,
    run ROWS_PER_FILE empty_lines = inl st /\
    file_index st = 1 /\ sizes st = [0].
Proof.
  pose proof length_empty_lines as Hlen.
  pose proof (run_all_malformed ROWS_PER_FILE empty_lines eq_refl
                empty_lines_malformed) as [Hm Hrun].
  split; [exact Hlen|]. split; [|exact Hrun].
  rewrite Hm. exact Hlen.
Qed.

(** C6, amended: on a stream of exactly 2,500,000 lines, with the cap at
    1,000,000, the run ends without an error with at least one and at most
    three files; the files hold as many data rows as there are well-formed
    lines, at most the cap each; and when every line is well-formed there
    are exactly three files, of 1,000,000, 1,000,000 and 500,000 rows. *)
Theorem scenario_of_2500000_lines (rows : list (list string)) :
  Z.of_nat (length rows) = 2500000 ->
  exists st,
    run ROWS_PER_FILE rows = inl st /\
    file_index st = Z.of_nat (length (partitions st)) /\
    1 <= file_index st <= 3 /\
    written st = 2500000 - malformed rows /\
    Forall (fun n => 0 <= n <= 1000000) (sizes st) /\
    (malformed rows = 0 ->
     file_index st = 3 /\ sizes st = [1000000; 1000000; 500000]).
Proof.
  intros Hlen. destruct (loop_total ROWS_PER_FILE rows init) as [st Hst].
  exists st. split; [done|].
  assert (0 < ROWS_PER_FILE) as Hcap by reflexivity.
  pose proof (inv_loop _ rows init st Hcap (inv_init _ Hcap) Hst) as Hinv.
  destruct (loop_counts _ rows init st headed_init Hst) as [Hw _].
  change (written init) with 0 in Hw.
  pose proof (written_inv _ st Hinv) as Hwi.
  pose proof (sizes_inv _ st Hinv) as Hs.
  pose proof (inv_range _ _ Hinv) as Hr.
  pose proof (inv_index _ _ Hinv) as Hi.
  pose proof (malformed_nonneg rows) as Hm.
  unfold ROWS_PER_FILE in *.
  split; [unfold partitions; rewrite length_app; simpl; lia|].
  split; [lia|]. split; [lia|]. split.
  - rewrite Hs. apply Forall_app. split.
    + apply Forall_replicate. lia.
    + constructor; [lia | done].
  - intros Hz.
    assert (1 <= row_in_file st) as Hpos.
    { apply (loop_wellformed_positive 1000000 rows init st); try done.
      - by apply malformed_zero.
      - left. intros ->. simpl in Hlen. lia. }
    assert (length (closed st) = 2%nat) as Hc by lia.
    rewrite Hs, Hc. simpl. split; [lia|]. do 3 f_equal. lia.
Qed.

Lemma scenario_of_2500000_lines_witness :
  Z.of_nat (length empty_lines) = 2500000 /\
  exists st,
    run ROWS_PER_FILE empty_lines = inl st /\ 1 <= file_index st <= 3.
Proof.
  split; [exact length_empty_lines|].
  destruct (scenario_of_2500000_lines empty_lines length_empty_lines)
    as (st & Hrun & _ & Hfi & _).
  exists st. split; [exact Hrun | exact Hfi].
Defined.

(** ** Integers in texts *)

Section Integers.

Lemma digit_char c :
  Py.isdigit c = true ->
  Py.isspace c = false /\ Py.int_isspace c = false /\
  Ascii.eqb c "_" = false /\ Ascii.eqb c "," = false /\
  (exists v, Py.digit c = Some v) /\
  forall s, Py.int_signed (String c s) = Py.int_unsigned (String c s).
Proof.
  destruct c as [[] [] [] [] [] [] [] []]; intros Hd;
    try (vm_compute in Hd; discriminate Hd);
    (split; [reflexivity|]; split; [reflexivity|]; split; [reflexivity|];
     split; [reflexivity|]; split;
     [eexists; reflexivity | intros s; reflexivity]).
Qed.

Lemma lstrip_digit c s :
  Py.isdigit c = true -> Py.int_lstrip (String c s) = String c s.
Proof.
  intros Hd. destruct (digit_char c Hd) as (_ & Hs & _). simpl.
  by rewrite Hs.
Qed.

Lemma rstrip_take_while s :
  Py.int_rstrip (Py.take_while Py.isdigit s) = Py.take_while Py.isdigit s.
Proof.
  induction s as [|c s IH]; simpl; [done|].
  destruct (Py.isdigit c) eqn:Hd; simpl; [|done].
  destruct (digit_char c Hd) as (_ & Hs & _).
  rewrite IH. destruct (Py.take_while Py.isdigit s); [by rewrite Hs | done].
Qed.

Lemma int_digits_take_while s :
  forall acc, exists n,
    Py.int_digits acc (Py.take_while Py.isdigit s) = Some n.
Proof.
  induction s as [|c s IH]; intros acc; simpl; [eauto|].
  destruct (Py.isdigit c) eqn:Hd; simpl; [|eauto].
  destruct (digit_char c Hd) as (_ & _ & Hu & _ & [v Hv] & _).
  rewrite Hu, Hv. apply IH.
Qed.

(** A run of digits that [\d+] matches is a literal as it stands. *)
Lemma int_signed_search_digits s : forall g,
  Py.search_digits s = Some g ->
  Py.int_rstrip (Py.int_lstrip g) = g /\ exists n, Py.int_signed g = Some n.
Proof.
  induction s as [|c s IH]; intros g; [done|].
  cbn [Py.search_digits]. destruct (Py.isdigit c) eqn:Hd; [|apply IH].
  assert (Py.take_while Py.isdigit (String c s)
          = String c (Py.take_while Py.isdigit s)) as Heq
    by (simpl; by rewrite Hd).
  rewrite Heq. intros [= <-].
  destruct (digit_char c Hd) as (_ & _ & _ & _ & [v Hv] & Hsig).
  rewrite lstrip_digit by done.
  rewrite <- Heq, rstrip_take_while, Heq, Hsig. split; [done|].
  simpl. rewrite Hv. apply int_digits_take_while.
Qed.

(** [int] accepts the runs of digits that [\d+] matches up to the limit
    on the number of digits, and no longer one. *)
Lemma int_search_digits s g :
  Py.search_digits s = Some g ->
  (Py.count_digits g <= Py.int_max_str_digits ->
   exists n, Py.int g = Some n) /\
  (Py.int_max_str_digits < Py.count_digits g -> Py.int g = None).
Proof.
  intros Hg. destruct (int_signed_search_digits s g Hg) as [Hlit [n Hn]].
  unfold Py.int. rewrite Hlit. split; intros Hc.
  - rewrite bool_decide_eq_true_2 by done. eauto.
  - rewrite bool_decide_eq_false_2 by lia. done.
Qed.

(** [search_video] never yields an empty identifier. *)
Lemma search_video_nonempty s g :
  Py.search_video s = Some g -> Py.truthy g = true.
Proof.
  induction s as [|c s IH]; simpl.
  - unfold Py.match_video. simpl. done.
  - unfold Py.match_video at 1.
    destruct (Py.strip_prefix "video." (String c s)) as [r|]; [|exact IH].
    destruct (Py.truthy (Py.take_while Py.lower_alnum r)) eqn:Ht;
      [|exact IH].
    by intros [= <-].
Qed.

End Integers.

(** ** The field derivations *)

Section Derivations.

Lemma rstrip_replace_comma s :
  digits_and_commas s = true ->
  Py.rstrip (Py.replace_comma s) = Py.replace_comma s /\
  Py.int_rstrip (Py.replace_comma s) = Py.replace_comma s.
Proof.
  induction s as [|c s IH]; simpl; [done|].
  intros [Hc Hs]%andb_prop. destruct (IH Hs) as [IH1 IH2].
  destruct (Ascii.eqb c ","); [done|]. simpl in Hc.
  rewrite orb_false_r in Hc.
  destruct (digit_char c Hc) as (H1 & H2 & _). simpl.
  rewrite IH1, IH2, H1, H2. by destruct (Py.replace_comma s).
Qed.

Lemma int_digits_replace_comma s :
  digits_and_commas s = true ->
  forall acc, Py.int_digits acc (Py.replace_comma s) = Some (decimal acc s).
Proof.
  induction s as [|c s IH]; simpl; [done|].
  intros [Hc Hs]%andb_prop acc.
  destruct (Ascii.eqb_spec c ",") as [->|Hne]; [by apply IH|].
  simpl in Hc. rewrite orb_false_r in Hc.
  destruct (digit_char c Hc) as (_ & _ & Hu & _ & [v Hv] & _).
  simpl. rewrite Hu, Hv. by apply IH.
Qed.

Lemma replace_comma_first s :
  digits_and_commas s = true -> has_digit s = true ->
  exists c g, Py.replace_comma s = String c g /\ Py.isdigit c = true.
Proof.
  induction s as [|c s IH]; simpl; [done|].
  intros [Hc Hs]%andb_prop Hd.
  destruct (Ascii.eqb_spec c ",") as [->|Hne].
  - simpl in Hd. by apply IH.
  - simpl in Hc. rewrite orb_false_r in Hc. eauto.
Qed.

Lemma count_digits_replace_comma s :
  Py.count_digits (Py.replace_comma s) = Py.count_digits s.
Proof.
  induction s as [|c s IH]; [done|]. simpl.
  destruct (Ascii.eqb_spec c ",") as [->|Hne]; simpl; by rewrite IH.
Qed.

(** The integer read in a text of digits and commas is the decimal value
    of its digits, if they are no more than the limit. *)
Lemma int_of_digits_and_commas s :
  digits_and_commas s = true -> has_digit s = true ->
  Py.strip (Py.replace_comma s) = Py.replace_comma s /\
  Py.int (Py.replace_comma s)
  = if bool_decide (Py.count_digits s <= Py.int_max_str_digits)
    then Some (decimal 0 s) else None.
Proof.
  intros Hs Hd.
  destruct (replace_comma_first s Hs Hd) as (c & g & Heq & Hc).
  destruct (rstrip_replace_comma s Hs) as [Hr Hir].
  destruct (digit_char c Hc) as (Hsp & Hisp & Hu & _ & [v Hv] & Hsig).
  pose proof (int_digits_replace_comma s Hs 0) as Hval.
  split.
  - unfold Py.strip. rewrite Heq at 1. simpl. rewrite Hsp, <- Heq. exact Hr.
  - assert (Py.int_rstrip (Py.int_lstrip (Py.replace_comma s))
            = Py.replace_comma s) as Hlit.
    { rewrite Heq at 1. simpl Py.int_lstrip. by rewrite Hisp, <- Heq. }
    unfold Py.int. rewrite Hlit, count_digits_replace_comma.
    case_bool_decide; [|done].
    rewrite Heq, Hsig. rewrite Heq in Hval. simpl in Hval.
    rewrite Hu, Hv in Hval. simpl. rewrite Hv. exact Hval.
Qed.

Lemma truthy_has_digit s : has_digit s = true -> Py.truthy s = true.
Proof. by destruct s. Qed.

Lemma parse_views_value s :
  ImportCleanData.parse_views s
  = Ok (default 0 (Py.int (Py.strip (Py.replace_comma s)))).
Proof.
  unfold ImportCleanData.parse_views, int_of, try_except.
  destruct s as [|c s]; [reflexivity|]. simpl negb. cbv iota.
  by destruct (Py.int _).
Qed.

End Derivations.

(** C3 fails as stated on [parse_views] of import_csv_postgres.py, which
    has no handler of its own: on a text that does not parse it raises. *)
Lemma parse_views_raises_in_row_loader :
  ImportCsvPostgres.parse_views "abc" = Raise ValueError.
Proof. reflexivity. Qed.

(** C3, amended: [parse_views] of import-clean-data.py never raises: on
    every text it returns the integer that [int] reads in the text once its
    commas are removed and its ends are stripped, and 0 when the text is
    empty or does not parse.  On a text of digits and commas that is the
    decimal value of the digits when they are at most 4300, the limit of
    [int], and 0 beyond.  So [parse_views] is 1234567 on 1,234,567, and 0
    on the empty text and on abc.  [parse_views] of import_csv_postgres.py
    returns 0 on the empty text and the integer that [int] reads in the
    text without its commas when that parses (the decimal value of the
    digits, on a text of digits and commas with at most 4300 digits), and
    raises [ValueError] on any other text. *)
Theorem parse_views_of_the_two_loaders :
  (forall s,
     ImportCleanData.parse_views s
     = Ok (default 0 (Py.int (Py.strip (Py.replace_comma s))))) /\
  (forall s,
     digits_and_commas s = true -> has_digit s = true ->
     (Py.count_digits s <= 4300 ->
      ImportCleanData.parse_views s = Ok (decimal 0 s) /\
      ImportCsvPostgres.parse_views s = Ok (decimal 0 s)) /\
     (4300 < Py.count_digits s ->
      ImportCleanData.parse_views s = Ok 0 /\
      ImportCsvPostgres.parse_views s = Raise ValueError)) /\
  ImportCleanData.parse_views "1,234,567" = Ok 1234567 /\
  ImportCleanData.parse_views EmptyString = Ok 0 /\
  ImportCleanData.parse_views "abc" = Ok 0 /\
  (forall s,
     ImportCsvPostgres.parse_views s
     = if Py.truthy s then
         match Py.int (Py.replace_comma s) with
         | Some n => Ok n
         | None => Raise ValueError
         end
       else Ok 0).
Proof.
  split; [exact parse_views_value|]. split; [|repeat split].
  - intros s Hs Hd. destruct (int_of_digits_and_commas s Hs Hd) as [H1 H2].
    unfold Py.int_max_str_digits in H2.
    split; intros Hc.
    + rewrite bool_decide_eq_true_2 in H2 by done. split.
      * by rewrite parse_views_value, H1, H2.
      * unfold ImportCsvPostgres.parse_views, int_of.
        by rewrite (truthy_has_digit s Hd), H2.
    + rewrite bool_decide_eq_false_2 in H2 by lia. split.
      * by rewrite parse_views_value, H1, H2.
      * unfold ImportCsvPostgres.parse_views, int_of.
        by rewrite (truthy_has_digit s Hd), H2.
  - intros s. unfold ImportCsvPostgres.parse_views, int_of.
    by destruct (Py.truthy s).
Qed.

Lemma parse_views_of_the_two_loaders_witness :
  ImportCleanData.parse_views "12,5" = Ok (decimal 0 "12,5").
Proof.
  destruct parse_views_of_the_two_loaders as (_ & H & _).
  destruct (H "12,5") as [Hshort _]; [reflexivity | reflexivity |].
  destruct Hshort as [Hv _]; [vm_compute; discriminate | exact Hv].
Defined.

Section Markup.

Lemma occurs_in_markup v : occurs_in v (iframe_markup v).
Proof.
  unfold occurs_in, iframe_markup.
  exists ("<iframe src=" +:+ dq +:+ "https://www.xvideos.com/embedframe/").
  eexists. rewrite !append_assoc. reflexivity.
Qed.

Lemma construct_iframe_none v :
  ImportCleanData.construct_iframe v = None <->
  v = None \/ v = Some EmptyString.
Proof.
  unfold ImportCleanData.construct_iframe. destruct v as [[|c s]|]; simpl.
  - split; [by right | done].
  - split; [done | by intros [|]].
  - split; [by left | done].
Qed.

Lemma extract_video_id_nonempty url :
  ImportCleanData.extract_video_id url <> Some EmptyString /\
  ImportCsvPostgres.extract_video_id url <> Some EmptyString.
Proof.
  unfold ImportCleanData.extract_video_id, ImportCsvPostgres.extract_video_id.
  split.
  - destruct (negb (Py.truthy url)); [done|].
    by intros H%search_video_nonempty.
  - by intros H%search_video_nonempty.
Qed.

End Markup.

(** C5 fails as stated: [construct_iframe] of import-clean-data.py returns
    none for the empty identifier, which is not none; and [construct_iframe]
    of import_csv_postgres.py returns the markup for the identifier none. *)
Lemma construct_iframe_none_for_empty_identifier :
  ImportCleanData.construct_iframe (Some EmptyString) = None /\
  Some EmptyString <> (None : option string) /\
  ImportCsvPostgres.construct_iframe None = iframe_markup "None".
Proof. repeat split. done. Qed.

(** C5, amended: [construct_iframe] of import-clean-data.py returns none
    if and only if the identifier is none or the empty text, and for every
    non-empty identifier it returns the fixed markup of the player with
    that identifier in it; the identifier [extract_video_id] yields is never
    the empty text, so on it the markup is none if and only if the
    identifier is none.  [construct_iframe] of import_csv_postgres.py
    returns the markup for every identifier, with the text None in it for
    the identifier none. *)
Theorem construct_iframe_of_the_two_loaders :
  (forall v : option string,
     ImportCleanData.construct_iframe v = None <->
     v = None \/ v = Some EmptyString) /\
  (forall s : string,
     s <> EmptyString ->
     ImportCleanData.construct_iframe (Some s) = Some (iframe_markup s) /\
     occurs_in s (iframe_markup s)) /\
  (forall url : string,
     ImportCleanData.construct_iframe (ImportCleanData.extract_video_id url)
       = None <->
     ImportCleanData.extract_video_id url = None) /\
  (forall v : option string,
     ImportCsvPostgres.construct_iframe v = iframe_markup (Py.format_opt v)).
Proof.
  split; [exact construct_iframe_none|]. split; [|split].
  - intros s Hs. split; [|apply occurs_in_markup].
    destruct s; [done|]. reflexivity.
  - intros url. rewrite construct_iframe_none.
    pose proof (extract_video_id_nonempty url) as [Hne _].
    split; [by intros [|] | by left].
  - reflexivity.
Qed.

Lemma construct_iframe_of_the_two_loaders_witness :
  ImportCleanData.construct_iframe (Some "abc123")
  = Some (iframe_markup "abc123").
Proof.
  destruct construct_iframe_of_the_two_loaders as (_ & H & _).
  apply (H "abc123"). discriminate.
Defined.

(** ** The batch loader *)

Section BatchLoader.
Import ImportCleanData.

(** [parse_duration] returns on the readable durations and raises
    [ValueError] on the others. *)
Lemma parse_duration_cases s :
  if readable s then exists d, parse_duration s = Ok d
  else parse_duration s = Raise ValueError.
Proof.
  unfold parse_duration, readable.
  destruct s as [|c s]; [simpl; eauto|].
  cbn [Py.truthy negb].
  destruct (Py.search_digits (String c s)) as [g|] eqn:Hg; [|eauto].
  destruct (int_search_digits _ g Hg) as [Hle Hgt]. unfold int_of.
  case_bool_decide as Hc.
  - destruct (Hle Hc) as [n ->]. simpl. eauto.
  - rewrite Hgt by lia. done.
Qed.

Lemma parse_views_total s : exists n, parse_views s = Ok n.
Proof. rewrite parse_views_value. eauto. Qed.

(** The derivation on a data line of a partition file: no field is
    [None], so that no [strip] raises. *)
Lemma derive_partition_row
  (f0 f1 f2 f3 f4 f5 f6 f7 f8 f9 f10 f11 f12 f13 f14 : string) :
  derive (dict_row ReadFile.header
            [f0; f1; f2; f3; f4; f5; f6; f7; f8; f9; f10; f11; f12; f13; f14])
  = if negb (Py.truthy (Py.strip f1)) || negb (Py.truthy (Py.strip f0))
    then Ok None
    else
      duration ← parse_duration (Py.strip f2);
      views ← parse_views (Py.strip f7);
      let final_thumbnail :=
        if Py.truthy (Py.strip f13) then Py.strip f13 else Py.strip f3 in
      if negb (Py.truthy final_thumbnail) then Ok None
      else
        Ok (Some (Media (Py.strip f1) (Py.strip f0) final_thumbnail duration
                        (Py.strip f8)
                        (construct_iframe (extract_video_id (Py.strip f0)))
                        (Py.strip f5) (Py.strip f6) (Py.strip f9)
                        (Py.strip f10) (Py.strip f12) views)).
Proof. reflexivity. Qed.

(** What the derivation gives on a data line: nothing without a title or
    a URL, [ValueError] on an unreadable duration, nothing without a
    thumbnail, and a record otherwise. *)
Lemma derive_gate
  (f0 f1 f2 f3 f4 f5 f6 f7 f8 f9 f10 f11 f12 f13 f14 : string) :
  let r := dict_row ReadFile.header
             [f0; f1; f2; f3; f4; f5; f6; f7; f8; f9; f10; f11; f12; f13; f14]
  in
  if Py.truthy (Py.strip f1) && Py.truthy (Py.strip f0) then
    if readable (Py.strip f2) then
      if Py.truthy (if Py.truthy (Py.strip f13) then Py.strip f13
                    else Py.strip f3)
      then
        exists d n,
          parse_duration (Py.strip f2) = Ok d /\
          parse_views (Py.strip f7) = Ok n /\
          derive r =
            Ok (Some (Media (Py.strip f1) (Py.strip f0)
                            (if Py.truthy (Py.strip f13) then Py.strip f13
                             else Py.strip f3)
                            d (Py.strip f8)
                            (construct_iframe
                               (extract_video_id (Py.strip f0)))
                            (Py.strip f5) (Py.strip f6) (Py.strip f9)
                            (Py.strip f10) (Py.strip f12) n))
      else derive r = Ok None
    else derive r = Raise ValueError
  else derive r = Ok None.
Proof.
  intros r. unfold r. rewrite derive_partition_row.
  pose proof (parse_duration_cases (Py.strip f2)) as Hd.
  destruct (parse_views_total (Py.strip f7)) as [n Hn]. rewrite Hn.
  destruct (Py.truthy (Py.strip f1)); simpl; [|done].
  destruct (Py.truthy (Py.strip f0)); simpl; [|done].
  destruct (readable (Py.strip f2)); [|by rewrite Hd].
  destruct Hd as [d Hd]. rewrite Hd. simpl.
  destruct (Py.truthy (if Py.truthy (Py.strip f13) then Py.strip f13
                       else Py.strip f3)); simpl; [|done].
  exists d, n. done.
Qed.

(** A record is built exactly on the lines that pass the test and have a
    readable duration. *)
Lemma derive_gate_iff
  (f0 f1 f2 f3 f4 f5 f6 f7 f8 f9 f10 f11 f12 f13 f14 : string) :
  (exists m,
     derive (dict_row ReadFile.header
               [f0; f1; f2; f3; f4; f5; f6; f7; f8; f9; f10; f11; f12; f13;
                f14]) = Ok (Some m))
  <-> gate (Py.strip f1) (Py.strip f0) (Py.strip f3) (Py.strip f13) = true
      /\ readable (Py.strip f2) = true.
Proof.
  pose proof (derive_gate f0 f1 f2 f3 f4 f5 f6 f7 f8 f9 f10 f11 f12 f13 f14)
    as Hg.
  simpl in Hg. unfold gate.
  destruct (Py.truthy (Py.strip f1) && Py.truthy (Py.strip f0)); simpl;
    [|rewrite Hg; split; [by intros [? ?] | by intros [? _]]].
  destruct (readable (Py.strip f2));
    [|rewrite Hg; split; [by intros [? ?] | by intros [_ ?]]].
  destruct (Py.truthy _);
    [|rewrite Hg; split; [by intros [? ?] | by intros [? _]]].
  destruct Hg as (d & n & _ & _ & ->). split; [done | eauto].
Qed.

(** Whatever the row, a record that is built has a title, a URL and a
    thumbnail, and its thumbnail is the secondary one when that is not
    empty, the primary one otherwise. *)
Lemma derive_some (r : row) (m : MediaRecord) :
  derive r = Ok (Some m) ->
  Py.truthy (title m) = true /\ Py.truthy (source_url m) = true /\
  Py.truthy (thumbnail_url m) = true /\
  exists t1 t2,
    get_strip r "thumbnail_url" = Ok t1 /\
    get_strip r "thumbnail_url_2" = Ok t2 /\
    thumbnail_url m = if Py.truthy t2 then t2 else t1.
Proof.
  unfold derive.
  repeat match goal with
         | |- context [get_strip r ?k] =>
             destruct (get_strip r k) as [?|?]; simpl; [|done]
         end.
  destruct (negb (Py.truthy _) || negb (Py.truthy _)) eqn:Hg; [done|].
  apply orb_false_elim in Hg as [Ht Hu].
  apply negb_false_iff in Ht, Hu.
  destruct (parse_duration _); simpl; [|done].
  destruct (parse_views _); simpl; [|done].
  destruct (negb (Py.truthy _)) eqn:Hf; [done|].
  apply negb_false_iff in Hf.
  intros [= <-]. simpl. eauto 10.
Qed.

Context {S : Type} `{Database S}.

(** A row that yields no record only adds one to [skipped]. *)
Lemma process_row_no_record (bs : Z) (st : loader S) (r : row) :
  (forall m, derive r <> Ok (Some m)) -> process_row bs st r = skip st.
Proof.
  intros Hno. unfold process_row, row_body.
  destruct (derive r) as [[m|]|e]; [by destruct (Hno m) | done | done].
Qed.

(** A record appended stays in the batch, or is in the batch handed to
    the database in this very iteration. *)
Lemma process_row_record (bs : Z) (st : loader S) (r : row) (m : MediaRecord) :
  derive r = Ok (Some m) ->
  let st' := process_row bs st r in
  row_body bs st r = flush bs (append st m) /\
  batch (append st m) = batch st ++ [m] /\
  ((batch st' = batch st ++ [m] /\ calls st' = calls st
    /\ Z.of_nat (length (batch st ++ [m])) < bs)
   \/ (calls st' = calls st ++ [batch st ++ [m]]
       /\ bs <= Z.of_nat (length (batch st ++ [m])))).
Proof.
  intros Hm. unfold process_row, row_body. rewrite Hm.
  split; [done|]. split; [done|].
  unfold flush. case_bool_decide as Hfull; simpl in Hfull.
  - right. split; [|done]. unfold submit. simpl.
    destruct (executemany (db st) (batch st ++ [m])) as [d [e|]]; [done|].
    by destruct (commit d) as [d' [e|]].
  - left. simpl. split; [done|]. split; [done|]. lia.
Qed.

End BatchLoader.

(** ** The row-by-row loader *)

Section RowLoader.
Import ImportCsvPostgres.

Lemma row_parse_duration_cases s :
  if readable s then exists d, parse_duration s = Ok d
  else parse_duration s = Raise ValueError.
Proof.
  unfold parse_duration, readable.
  destruct s as [|c s]; [simpl; eauto|].
  cbn [Py.truthy negb].
  destruct (Py.search_digits (String c s)) as [g|] eqn:Hg; [|eauto].
  destruct (int_search_digits _ g Hg) as [Hle Hgt]. unfold int_of.
  case_bool_decide as Hc.
  - destruct (Hle Hc) as [n ->]. simpl. eauto.
  - rewrite Hgt by lia. done.
Qed.

Lemma derive_short (l : list string) :
  (length l < 14)%nat -> derive l = Ok None.
Proof. intros Hl. unfold derive. by rewrite bool_decide_eq_true_2. Qed.

(** The derivation on a line of at least fourteen fields. *)
Lemma derive_line
  (g0 g1 g2 g3 g4 g5 g6 g7 g8 g9 g10 g11 g12 g13 : string)
  (rest : list string) :
  derive (g0 :: g1 :: g2 :: g3 :: g4 :: g5 :: g6 :: g7 :: g8 :: g9 :: g10
             :: g11 :: g12 :: g13 :: rest)
  = if negb (Py.truthy (Py.strip g1)) || negb (Py.truthy (Py.strip g0))
    then Ok None
    else if negb (Py.truthy_opt (extract_video_id (Py.strip g0)))
    then Ok None
    else
      duration ← parse_duration (Py.strip g2);
      views ← parse_views (Py.strip g7);
      Ok (Some
            (MkStaging (Py.strip g0) (Py.strip g1) (Py.strip g2)
                       (Py.strip g3) (Py.strip g4) (Py.strip g5)
                       (Py.strip g6) (Py.strip g7) (Py.strip g8)
                       (Py.strip g9) EmptyString (Py.strip g11)
                       (Py.strip g12) EmptyString,
             MkVideo (Py.strip g1) (Py.strip g0)
                     (if Py.truthy (Py.strip g12) then Py.strip g12
                      else Py.strip g3)
                     duration
                     (construct_iframe (extract_video_id (Py.strip g0)))
                     (Py.strip g5) (Py.strip g6)
                     (if Py.truthy (Py.strip g9) then Py.strip g9
                      else Py.strip g8))).
Proof.
  unfold derive. rewrite bool_decide_eq_false_2 by (simpl; lia).
  reflexivity.
Qed.

(** The test of the row-by-row loader: title, URL, identifier, duration
    and views; no thumbnail. *)
Lemma derive_line_some
  (g0 g1 g2 g3 g4 g5 g6 g7 g8 g9 g10 g11 g12 g13 : string)
  (rest : list string) :
  (exists sg v,
     derive (g0 :: g1 :: g2 :: g3 :: g4 :: g5 :: g6 :: g7 :: g8 :: g9 :: g10
                :: g11 :: g12 :: g13 :: rest) = Ok (Some (sg, v))
     /\ thumbnail_url v
        = if Py.truthy (Py.strip g12) then Py.strip g12 else Py.strip g3)
  <-> Py.truthy (Py.strip g1) = true /\ Py.truthy (Py.strip g0) = true /\
      Py.truthy_opt (extract_video_id (Py.strip g0)) = true /\
      readable (Py.strip g2) = true /\
      exists n, parse_views (Py.strip g7) = Ok n.
Proof.
  rewrite derive_line.
  pose proof (row_parse_duration_cases (Py.strip g2)) as Hd.
  destruct (Py.truthy (Py.strip g1)); simpl;
    [|split; [by intros (? & ? & ? & _) | by intros [? _]]].
  destruct (Py.truthy (Py.strip g0)); simpl;
    [|split; [by intros (? & ? & ? & _) | by intros (_ & ? & _)]].
  destruct (Py.truthy_opt (extract_video_id (Py.strip g0))); simpl;
    [|split; [by intros (? & ? & ? & _) | by intros (_ & _ & ? & _)]].
  destruct (readable (Py.strip g2));
    [|rewrite Hd; split;
      [by intros (? & ? & ? & _) | by intros (_ & _ & _ & ? & _)]].
  destruct Hd as [d ->]. simpl.
  destruct (parse_views (Py.strip g7)) as [n|e]; simpl.
  - split; [eauto 10|]. intros _. eexists _, _. split; [reflexivity|done].
  - split; [by intros (? & ? & ? & _) | by intros (_ & _ & _ & _ & [? ?])].
Qed.

(** Whatever the line, the thumbnail stored is the secondary one when that
    is not empty, the primary one otherwise. *)
Lemma row_derive_some (l : list string) (sg : Staging) (v : Video) :
  derive l = Ok (Some (sg, v)) ->
  Py.truthy (title v) = true /\ Py.truthy (source_url v) = true /\
  exists t1 t2,
    item_strip l 3 = Ok t1 /\ item_strip l 12 = Ok t2 /\
    thumbnail_url v = if Py.truthy t2 then t2 else t1.
Proof.
  unfold derive. case_bool_decide; [done|].
  repeat match goal with
         | |- context [item_strip l ?k] =>
             destruct (item_strip l k) as [?|?]; simpl; [|done]
         end.
  destruct (negb (Py.truthy _) || negb (Py.truthy _)) eqn:Hg; [done|].
  apply orb_false_elim in Hg as [Ht Hu].
  apply negb_false_iff in Ht, Hu.
  destruct (negb (Py.truthy_opt _)); [done|].
  destruct (parse_duration _); simpl; [|done].
  destruct (parse_views _); simpl; [|done].
  intros [= <- <-]. simpl. eauto 10.
Qed.

Context {T : Type} `{Database T}.

Lemma row_process_no_record (st : loader T) (l : list string) :
  (forall p, derive l <> Ok (Some p)) -> process_row st l = skip st.
Proof.
  intros Hno. unfold process_row, row_body.
  destruct (derive l) as [[p|]|e]; [by destruct (Hno p) | done | done].
Qed.

(** The record of a line is submitted: the loader hands the statement for
    the staging table to the database, then, unless that raised, the
    statement for the table of the videos, and counts the line as imported
    when neither raised. *)
Lemma row_process_record (st : loader T) (l : list string) sg v :
  derive l = Ok (Some (sg, v)) ->
  let st' := process_row st l in
  (calls st' = calls st ++ [InsertStaging sg]
   \/ calls st' = calls st ++ [InsertStaging sg; InsertVideos v]) /\
  (forall d1 d2,
     execute (db st) (InsertStaging sg) = (d1, None) ->
     execute d1 (InsertVideos v) = (d2, None) ->
     imported st' = imported st + 1 /\
     calls st' = calls st ++ [InsertStaging sg; InsertVideos v]) /\
  (forall d1 e,
     execute (db st) (InsertStaging sg) = (d1, Some e) ->
     st' = Loader (imported st) (skipped st + 1) d1
                  (calls st ++ [InsertStaging sg])).
Proof.
  intros Hd. unfold process_row, row_body, run_execute. rewrite Hd.
  destruct (execute (db st) (InsertStaging sg)) as [d1 [e1|]] eqn:H1; simpl.
  { split; [by left|]. split; [done|]. by intros ? ? [= <- <-]. }
  destruct (execute d1 (InsertVideos v)) as [d2 [e2|]] eqn:H2; simpl.
  { rewrite <- app_assoc. split; [by right|]. split; [|done].
    intros ? ? [= <-]. by rewrite H2. }
  assert (forall p : loader T * option exn,
            p = count_and_commit
                  (Loader (imported st) (skipped st) d2
                          ((calls st ++ [InsertStaging sg])
                             ++ [InsertVideos v])) ->
            imported (match p with (s, None) => s | (s, Some _) => skip s end)
            = imported st + 1 /\
            calls (match p with (s, None) => s | (s, Some _) => skip s end)
            = calls st ++ [InsertStaging sg; InsertVideos v]) as Hcc.
  { intros p ->. unfold count_and_commit. simpl. rewrite <- app_assoc.
    case_bool_decide; [|done].
    by destruct (commit d2) as [d3 [e3|]]. }
  match goal with
  | |- context [count_and_commit ?a] =>
      destruct (Hcc (count_and_commit a) eq_refl) as [Hi Hc]
  end.
  split; [by right|]. split; [|done].
  intros ? ? [= <-]. rewrite H2. by intros [= <-].
Qed.

End RowLoader.

(** ** The loaders and their gates *)

(** C1 fails as stated on the loader of import_csv_postgres.py, which has
    no test on the thumbnail: a line with a title and a URL and no
    thumbnail at all is stored, and counted as imported. *)
Lemma row_loader_stores_a_record_without_thumbnail :
  gate "X" "https://site/video.abc123" EmptyString EmptyString = false /\
  exists sg v,
    ImportCsvPostgres.derive line_without_thumbnail = Ok (Some (sg, v)) /\
    ImportCsvPostgres.thumbnail_url v = EmptyString /\
    ImportCsvPostgres.import_csv_file
      ([] : list ImportCsvPostgres.statement)
      [ReadFile.header; line_without_thumbnail]
    = ((1, 0),
       ImportCsvPostgres.Loader
         1 0
         [ImportCsvPostgres.InsertStaging sg; ImportCsvPostgres.InsertVideos v]
         [ImportCsvPostgres.InsertStaging sg;
          ImportCsvPostgres.InsertVideos v]).
Proof.
  split; [reflexivity|]. eexists _, _.
  split; [reflexivity|]. split; reflexivity.
Qed.

Section Gates.
Context {S : Type} `{ImportCleanData.Database S}.
Context {T : Type} `{ImportCsvPostgres.Database T}.

(** C1, amended: in the batch loader of import-clean-data.py, for every
    data row of a partition file, a record is appended to the batch (where
    it stays, or is handed to the database with the batch in the same
    iteration) if and only if its title, its URL and its resolved thumbnail
    (the secondary one if non-empty, else the primary one) are non-empty
    and its duration is readable, that is, the first run of digits in it
    has at most 4300 digits, the most [int] accepts; a row that fails the
    test or has an unreadable duration, as any row that yields no record,
    adds one to [skipped] and changes nothing else.  The loader of
    import_csv_postgres.py has no batch and no test on the thumbnail: it
    builds the record of a line of at least fourteen fields if and only if
    title and URL are non-empty, an identifier is found in the URL, the
    duration is readable and the views parse, whatever the thumbnails are;
    it hands the record to the database at once, first the statement for
    the staging table, then the one for the table of the videos, and
    counts the line as imported when the database accepts both; any line
    that yields no record adds one to [skipped] and changes nothing
    else. *)
Theorem records_pass_the_gate
  (bs : Z) (st : ImportCleanData.loader S)
  (video_url title duration thumbnail_url embed_code tags actors views
     category quality uploader empty_field publish_date thumbnail_url_2
     status : string) :
  let fields :=
    [video_url; title; duration; thumbnail_url; embed_code; tags; actors;
     views; category; quality; uploader; empty_field; publish_date;
     thumbnail_url_2; status] in
  let r := ImportCleanData.dict_row ReadFile.header fields in
  let passes :=
    gate (Py.strip title) (Py.strip video_url) (Py.strip thumbnail_url)
         (Py.strip thumbnail_url_2) in
  ImportCleanData.dict_reader [ReadFile.header; fields] = [r] /\
  ((exists m, ImportCleanData.derive r = Ok (Some m))
   <-> passes = true /\ readable (Py.strip duration) = true) /\
  (passes = true -> readable (Py.strip duration) = true ->
   exists m,
     ImportCleanData.derive r = Ok (Some m) /\
     ImportCleanData.title m = Py.strip title /\
     ImportCleanData.source_url m = Py.strip video_url /\
     ImportCleanData.thumbnail_url m
       = (if Py.truthy (Py.strip thumbnail_url_2)
          then Py.strip thumbnail_url_2 else Py.strip thumbnail_url) /\
     ImportCleanData.row_body bs st r
       = ImportCleanData.flush bs (ImportCleanData.append st m) /\
     let st' := ImportCleanData.process_row bs st r in
     (ImportCleanData.batch st' = ImportCleanData.batch st ++ [m]
      /\ ImportCleanData.calls st' = ImportCleanData.calls st)
     \/ ImportCleanData.calls st'
        = ImportCleanData.calls st ++ [ImportCleanData.batch st ++ [m]]) /\
  (passes = false \/ readable (Py.strip duration) = false ->
   (forall m, ImportCleanData.derive r <> Ok (Some m)) /\
   ImportCleanData.process_row bs st r = ImportCleanData.skip st) /\
  (forall (r' : ImportCleanData.row) (m : ImportCleanData.MediaRecord),
     ImportCleanData.derive r' = Ok (Some m) ->
     Py.truthy (ImportCleanData.title m) = true /\
     Py.truthy (ImportCleanData.source_url m) = true /\
     Py.truthy (ImportCleanData.thumbnail_url m) = true) /\
  (forall r' : ImportCleanData.row,
     (forall m, ImportCleanData.derive r' <> Ok (Some m)) ->
     ImportCleanData.process_row bs st r' = ImportCleanData.skip st) /\
  ImportCleanData.skip st
    = ImportCleanData.Loader
        (ImportCleanData.imported st) (ImportCleanData.skipped st + 1)
        (ImportCleanData.batch st) (ImportCleanData.db st)
        (ImportCleanData.calls st) /\
  (forall (g0 g1 g2 g3 g4 g5 g6 g7 g8 g9 g10 g11 g12 g13 : string)
          (rest : list string),
     ((exists sg v,
         ImportCsvPostgres.derive
           (g0 :: g1 :: g2 :: g3 :: g4 :: g5 :: g6 :: g7 :: g8 :: g9 :: g10
               :: g11 :: g12 :: g13 :: rest) = Ok (Some (sg, v))
         /\ ImportCsvPostgres.thumbnail_url v
            = if Py.truthy (Py.strip g12) then Py.strip g12 else Py.strip g3)
      <-> Py.truthy (Py.strip g1) = true /\ Py.truthy (Py.strip g0) = true /\
          Py.truthy_opt (ImportCsvPostgres.extract_video_id (Py.strip g0))
            = true /\
          readable (Py.strip g2) = true /\
          exists n, ImportCsvPostgres.parse_views (Py.strip g7) = Ok n)) /\
  (forall (pst : ImportCsvPostgres.loader T) (l : list string) sg v,
     ImportCsvPostgres.derive l = Ok (Some (sg, v)) ->
     let pst' := ImportCsvPostgres.process_row pst l in
     (ImportCsvPostgres.calls pst'
      = ImportCsvPostgres.calls pst ++ [ImportCsvPostgres.InsertStaging sg]
      \/ ImportCsvPostgres.calls pst'
         = ImportCsvPostgres.calls pst
             ++ [ImportCsvPostgres.InsertStaging sg;
                 ImportCsvPostgres.InsertVideos v]) /\
     (forall d1 d2,
        ImportCsvPostgres.execute (ImportCsvPostgres.db pst)
          (ImportCsvPostgres.InsertStaging sg) = (d1, None) ->
        ImportCsvPostgres.execute d1 (ImportCsvPostgres.InsertVideos v)
          = (d2, None) ->
        ImportCsvPostgres.imported pst' = ImportCsvPostgres.imported pst + 1
        /\ ImportCsvPostgres.calls pst'
           = ImportCsvPostgres.calls pst
               ++ [ImportCsvPostgres.InsertStaging sg;
                   ImportCsvPostgres.InsertVideos v])) /\
  (forall (pst : ImportCsvPostgres.loader T) (l : list string),
     (forall p, ImportCsvPostgres.derive l <> Ok (Some p)) ->
     ImportCsvPostgres.process_row pst l = ImportCsvPostgres.skip pst
     /\ ImportCsvPostgres.skip pst
        = ImportCsvPostgres.Loader
            (ImportCsvPostgres.imported pst)
            (ImportCsvPostgres.skipped pst + 1)
            (ImportCsvPostgres.db pst) (ImportCsvPostgres.calls pst)).
Proof.
  intros fields r passes.
  pose proof (derive_gate_iff video_url title duration thumbnail_url
                embed_code tags actors views category quality uploader
                empty_field publish_date thumbnail_url_2 status) as Hiff.
  fold fields r passes in Hiff.
  split; [reflexivity|]. split; [exact Hiff|].
  split; [|split; [|split; [|split; [|split; [|split; [|split]]]]]].
  - intros Hp Hr. destruct Hiff as [_ Hyes].
    destruct (Hyes (conj Hp Hr)) as [m Hm]. exists m.
    pose proof Hm as Hm'. unfold r, fields in Hm'.
    rewrite derive_partition_row in Hm'.
    destruct (negb _ || negb _); [done|].
    destruct (ImportCleanData.parse_duration _); [|done].
    destruct (ImportCleanData.parse_views _); [|done].
    simpl in Hm'. destruct (negb _); [done|]. injection Hm' as <-.
    split; [exact Hm|].
    cbn [ImportCleanData.title ImportCleanData.source_url
         ImportCleanData.thumbnail_url].
    split; [reflexivity|]. split; [reflexivity|]. split; [reflexivity|].
    destruct (process_row_record bs st r _ Hm) as (Hb & _ & Hc).
    split; [exact Hb|]. cbv zeta in Hc |- *.
    destruct Hc as [(Hb1 & Hc1 & _)|[Hc1 _]];
      [left; split; assumption | right; assumption].
  - intros Hno.
    assert (forall m, ImportCleanData.derive r <> Ok (Some m)) as Hnone.
    { intros m Hm. destruct Hiff as [Hyes _].
      destruct (Hyes (ex_intro _ m Hm)) as [Hp Hr].
      destruct Hno as [Hno|Hno]; congruence. }
    split; [exact Hnone|]. by apply process_row_no_record.
  - intros r' m Hm. destruct (derive_some r' m Hm) as (? & ? & ? & _). done.
  - intros r'. apply process_row_no_record.
  - done.
  - apply derive_line_some.
  - intros pst l sg v Hd.
    destruct (row_process_record pst l sg v Hd) as (Hc & Hok & _).
    split; [exact Hc | exact Hok].
  - intros pst l Hno. split; [by apply row_process_no_record | done].
Qed.

End Gates.

Lemma records_pass_the_gate_witness :
  exists m,
    ImportCleanData.derive (ImportCleanData.dict_row ReadFile.header sample_row)
    = Ok (Some m) /\
    ImportCleanData.title m = "X".
Proof.
  pose proof (records_pass_the_gate
                (S := list (list ImportCleanData.MediaRecord))
                (T := list ImportCsvPostgres.statement)
                ImportCleanData.batch_size (ImportCleanData.start [])
                "https://site/video.abc123" "  X " "1305 sec" EmptyString
                EmptyString "a,b" EmptyString "1,234,567" "cat" "hd" "up"
                EmptyString "2020" "https://t/img.jpg" "ok")
    as (_ & _ & Hyes & _).
  destruct Hyes as (m & Hm & Ht & _); [reflexivity | reflexivity |].
  exists m. split; [exact Hm | exact Ht].
Defined.


Section Thumbnails.
Context {S : Type} `{ImportCleanData.Database S}.
Context {T : Type} `{ImportCsvPostgres.Database T}.


End Thumbnails.


Section FailedSubmission.
Import ImportCleanData.
Context {S : Type} `{Database S}.

(** C9: in the batch loader of import-clean-data.py, when the database
    raises while a full batch is submitted (in [executemany] or in
    [commit]), the handler of the row absorbs the exception: [skipped]
    grows by exactly one whatever the size of the batch, [imported] is
    unchanged and the batch is not cleared; rows that yield no record leave
    it as it is, and the next row that yields a record hands the whole
    batch, the earlier records and the new one, to the database again. *)
Theorem failed_submission_keeps_the_batch
  (bs : Z) (st : loader S) (r : row) (m : MediaRecord) :
  derive r = Ok (Some m) ->
  bs <= Z.of_nat (length (batch st ++ [m])) ->
  (exists d e, executemany (db st) (batch st ++ [m]) = (d, Some e))
  \/ (exists d d' e,
        executemany (db st) (batch st ++ [m]) = (d, None)
        /\ commit d = (d', Some e)) ->
  let st1 := process_row bs st r in
  skipped st1 = skipped st + 1 /\
  imported st1 = imported st /\
  batch st1 = batch st ++ [m] /\
  calls st1 = calls st ++ [batch st ++ [m]] /\
  (forall r' : row,
     (forall m', derive r' <> Ok (Some m')) ->
     batch (process_row bs st1 r') = batch st ++ [m]
     /\ calls (process_row bs st1 r') = calls st1) /\
  (forall (r' : row) (m' : MediaRecord),
     derive r' = Ok (Some m') ->
     calls (process_row bs st1 r') = calls st1 ++ [batch st ++ [m] ++ [m']]).
Proof.
  intros Hm Hfull Hraise st1.
  assert (st1 = Loader (imported st) (skipped st + 1) (batch st ++ [m])
                       (db st1) (calls st ++ [batch st ++ [m]])) as Hst1.
  { unfold st1, process_row, row_body. rewrite Hm. unfold flush.
    rewrite bool_decide_eq_true_2 by done. unfold submit. simpl.
    destruct Hraise as [(d & e & ->)|(d & d' & e & -> & ->)]; done. }
  rewrite Hst1. simpl. repeat split.
  - rewrite process_row_no_record by done. done.
  - rewrite process_row_no_record by done. done.
  - intros r' m' Hm'.
    match goal with
    | |- context [process_row bs ?s r'] =>
        destruct (process_row_record bs s r' m' Hm') as (_ & _ & Hc)
    end.
    cbn [batch calls] in Hc. destruct Hc as [(_ & _ & Hlt)|[Hc _]].
    + rewrite !length_app in Hlt. rewrite length_app in Hfull. lia.
    + rewrite Hc. do 2 f_equal. by rewrite <- app_assoc.
Qed.

End FailedSubmission.

Lemma failed_submission_keeps_the_batch_witness :
  exists m,
    ImportCleanData.derive
      (ImportCleanData.dict_row ReadFile.header sample_row) = Ok (Some m) /\
    let st1 :=
      ImportCleanData.process_row
        1 (ImportCleanData.start tt)
        (ImportCleanData.dict_row ReadFile.header sample_row) in
    ImportCleanData.skipped st1 = 1 /\ ImportCleanData.batch st1 = [m].
Proof.
  assert (exists m,
            ImportCleanData.derive
              (ImportCleanData.dict_row ReadFile.header sample_row)
            = Ok (Some m))
    as [m Hm] by (eexists; vm_compute; reflexivity).
  exists m. split; [exact Hm|].
  destruct (failed_submission_keeps_the_batch
              (S := unit) 1 (ImportCleanData.start tt)
              (ImportCleanData.dict_row ReadFile.header sample_row) m Hm)
    as (Hs & _ & Hb & _).
  - simpl. lia.
  - left. exists tt, DatabaseError. reflexivity.
  - split; [exact Hs | exact Hb].
Defined.

(** * Further properties *)

(** ** The partitioner: order, numbering and number of files *)

Section PartitionerOrder.

Lemma kept_rows_cons row rows :
  kept_rows (row :: rows) = kept_rows [row] ++ kept_rows rows.
Proof.
  unfold kept_rows. simpl.
  by destruct (if wellformed row then cleaned row else None).
Qed.

Lemma all_data_rows_rotate cap st :
  all_data_rows (rotate cap st) = all_data_rows st.
Proof.
  unfold rotate. case_bool_decide; [|done].
  unfold all_data_rows, partitions. simpl.
  rewrite !fmap_app, !concat_app. simpl. by rewrite !app_nil_r.
Qed.

Lemma all_data_rows_write st row st' :
  headed st -> write st row = inl st' ->
  all_data_rows st' = all_data_rows st ++ kept_rows [row].
Proof.
  intros Hh. unfold kept_rows. simpl.
  destruct (wellformed row) eqn:Hw.
  - destruct (write_wellformed st row Hw) as (r & Hr & ->). intros [= <-].
    rewrite Hr. unfold all_data_rows, partitions. simpl.
    rewrite !fmap_app, !concat_app. simpl.
    rewrite data_rows_writerow by by apply headed_fout.
    by rewrite !app_nil_r, app_assoc.
  - rewrite write_malformed by done. intros [= <-]. by rewrite app_nil_r.
Qed.

Lemma all_data_rows_loop cap rows : forall st st',
  headed st -> loop cap st rows = inl st' ->
  all_data_rows st' = all_data_rows st ++ kept_rows rows.
Proof.
  induction rows as [|row rows IH]; intros st st' Hh; cbn [loop].
  - intros [= <-]. by rewrite app_nil_r.
  - destruct (body cap st row) as [st1|e] eqn:Hb; [|done]. intros Hl.
    unfold body in Hb.
    pose proof (headed_rotate cap _ (headed_count _ Hh)) as Hh2.
    rewrite (IH st1 st' (headed_write _ _ _ Hh2 Hb) Hl).
    rewrite (all_data_rows_write _ _ _ Hh2 Hb), all_data_rows_rotate.
    rewrite (kept_rows_cons row rows), app_assoc. done.
Qed.

Lemma numbered_init : numbered init.
Proof. split; [done|]. split; [done|]. intros i p Hp. done. Qed.

Lemma numbered_rotate cap st : numbered st -> numbered (rotate cap st).
Proof.
  intros (Hf & Hi & Hc). unfold rotate. case_bool_decide; [|done].
  split; [done|]. simpl. split; [rewrite length_app; simpl; lia|].
  intros i p [Hp|[Hlen Hp]]%lookup_app_Some; [by apply Hc|].
  apply list_lookup_singleton_Some in Hp as [Hz <-]. lia.
Qed.

Lemma numbered_write st row st' :
  numbered st -> write st row = inl st' -> numbered st'.
Proof.
  intros Hn. unfold write.
  destruct (wellformed row); [|by intros [= <-]].
  destruct (cleaned row); [|done]. by intros [= <-].
Qed.

Lemma numbered_loop cap rows : forall st st',
  numbered st -> loop cap st rows = inl st' -> numbered st'.
Proof.
  induction rows as [|row rows IH]; intros st st' Hn; cbn [loop].
  - by intros [= <-].
  - destruct (body cap st row) as [st1|e] eqn:Hb; [|done].
    apply IH. unfold body in Hb.
    eapply numbered_write; [|exact Hb]. by apply numbered_rotate.
Qed.

Lemma lstrip_fixed t :
  (forall c, first_char t = Some c -> Py.isspace c = false) ->
  Py.lstrip t = t.
Proof.
  destruct t as [|a t]; [done|]. simpl. intros Hc. by rewrite (Hc a).
Qed.

Lemma rstrip_fixed t :
  (forall c, last_char t = Some c -> Py.isspace c = false) ->
  Py.rstrip t = t.
Proof.
  induction t as [|a t IH]; [done|]. intros Hc. simpl.
  destruct t as [|b t].
  - simpl. by rewrite (Hc a).
  - rewrite IH by (intros c Hl; by apply Hc). done.
Qed.

(** Stripping a stripped text changes nothing. *)
Lemma strip_strip s : Py.strip (Py.strip s) = Py.strip s.
Proof.
  destruct (strip_trim_of s) as (_ & Hfirst & Hlast).
  unfold Py.strip at 1. rewrite (lstrip_fixed _ Hfirst).
  by apply rstrip_fixed.
Qed.

End PartitionerOrder.

(** X1: the data rows of the files, read file after file, are the cleaned
    rows of the well-formed lines of the stream, in the order of the
    stream: no row is lost, repeated or moved, whatever the cap. *)
Theorem partitions_keep_the_rows_in_order
  (cap : Z) (rows : list (list string)) :
  exists st,
    run cap rows = inl st /\
    concat (data_rows <$> partitions st)
    = omap (fun r => if wellformed r then cleaned r else None) rows.
Proof.
  destruct (loop_total cap rows init) as [st Hst]. exists st.
  split; [done|].
  apply (all_data_rows_loop cap rows init st headed_init Hst).
Qed.

(** X2: the files are numbered 1, 2, 3, ... in the order they are opened,
    each one starts with the header row, and the number of files reported
    at the end is the number of files that exist. *)
Theorem partitions_are_numbered_from_one
  (cap : Z) (rows : list (list string)) :
  exists st,
    run cap rows = inl st /\
    file_index st = Z.of_nat (length (partitions st)) /\
    forall (i : nat) (p : partition),
      partitions st !! i = Some p ->
      p_index p = Z.of_nat i + 1 /\ head (p_lines p) = Some header.
Proof.
  destruct (loop_total cap rows init) as [st Hst]. exists st.
  split; [done|].
  destruct (numbered_loop cap rows init st numbered_init Hst)
    as (Hf & Hi & Hc).
  assert (headed st) as Hh.
  { clear -Hst. revert Hst. generalize headed_init. generalize init.
    induction rows as [|row rows IH]; intros s Hs; cbn [loop].
    - by intros [= <-].
    - destruct (body cap s row) as [s1|e] eqn:Hb; [|done].
      apply IH. unfold body in Hb.
      eapply headed_write; [|exact Hb].
      apply headed_rotate. by apply headed_count. }
  split; [unfold partitions; rewrite length_app; simpl; lia|].
  intros i p Hp. split.
  - unfold partitions in Hp.
    apply lookup_app_Some in Hp as [Hp|[Hlen Hp]]; [by apply Hc|].
    apply list_lookup_singleton_Some in Hp as [Hz <-]. lia.
  - by apply (proj1 (Forall_lookup _ _) Hh i p).
Qed.

Lemma partitions_are_numbered_from_one_witness :
  exists st p,
    run 1 [sample_row; sample_row] = inl st /\
    partitions st !! 1%nat = Some p /\ p_index p = 2.
Proof.
  destruct (partitions_are_numbered_from_one 1 [sample_row; sample_row])
    as (st & Hrun & _ & Hnum).
  assert (exists p, partitions st !! 1%nat = Some p) as [p Hp].
  { vm_compute in Hrun. injection Hrun as <-. eexists. reflexivity. }
  exists st, p. split; [exact Hrun|]. split; [exact Hp|].
  destruct (Hnum 1%nat p Hp) as [Hi _]. exact Hi.
Defined.

(** X3: with a cap of at least one, the files closed are full and the last
    one is not over-full, so the number of files lies between the rows
    written divided by the cap, rounded up, and that number plus one; a
    stream without a well-formed line leaves one file, and a stream of
    [n >= 1] well-formed lines leaves [n / cap] files, rounded up. *)
Theorem number_of_files (cap : Z) (rows : list (list string)) :
  0 < cap ->
  exists st,
    run cap rows = inl st /\
    cap * (file_index st - 1) <= written st <= cap * file_index st /\
    (written st = 0 -> file_index st = 1) /\
    (malformed rows = 0 -> rows <> [] ->
     file_index st = (Z.of_nat (length rows) + cap - 1) `div` cap /\
     1 <= row_in_file st <= cap /\
     row_in_file st = Z.of_nat (length rows) - cap * (file_index st - 1)).
Proof.
  intros Hcap. destruct (loop_total cap rows init) as [st Hst]. exists st.
  split; [done|].
  pose proof (inv_loop _ rows init st Hcap (inv_init _ Hcap) Hst) as Hinv.
  destruct (loop_counts _ rows init st headed_init Hst) as [Hw _].
  change (written init) with 0 in Hw.
  pose proof (written_inv _ st Hinv) as Hwi.
  pose proof (inv_range _ _ Hinv) as Hr.
  pose proof (inv_index _ _ Hinv) as Hi.
  split; [nia|]. split; [nia|].
  intros Hz Hne.
  assert (1 <= row_in_file st) as Hpos.
  { apply (loop_wellformed_positive cap rows init st); try done.
    - by apply malformed_zero.
    - by left. }
  split; [|split; [lia | nia]].
  apply (Z.div_unique_pos _ _ _ (row_in_file st - 1)); nia.
Qed.

Lemma number_of_files_witness :
  exists st,
    run 2 [sample_row; sample_row; sample_row] = inl st /\
    file_index st = 2.
Proof.
  destruct (number_of_files 2 [sample_row; sample_row; sample_row])
    as (st & Hrun & _ & _ & Hn); [lia|].
  exists st. split; [exact Hrun|].
  destruct Hn as (Hfi & _); [reflexivity | discriminate |].
  exact Hfi.
Defined.

(** X4: a cleaned row is well-formed and is its own cleaned row: the
    sanitizer changes nothing in a row it has produced. *)
Theorem cleaned_rows_are_clean (row r : list string) :
  cleaned row = Some r ->
  wellformed r = true /\ cleaned r = Some r /\
  Forall (fun field => Py.strip field = field) r.
Proof.
  intros Hr. destruct (cleaned_fields row r Hr) as [Hlen Hf].
  assert (Forall (fun field => Py.strip field = field) r) as Hfix.
  { apply Forall_lookup. intros k y Hy.
    destruct (COLUMNS !! k) as [c|] eqn:Hc.
    - destruct (Hf k c Hc) as (raw & _ & Hk).
      rewrite Hk in Hy. injection Hy as <-. apply strip_strip.
    - apply lookup_ge_None in Hc. apply lookup_lt_Some in Hy. lia. }
  split; [|split; [|done]].
  - apply bool_decide_eq_true_2. rewrite Hlen. reflexivity.
  - do 16 (destruct r as [|? r]; try discriminate Hlen).
    repeat match goal with
           | H : Forall _ (_ :: _) |- _ => apply Forall_cons in H as [? H]
           end.
    unfold cleaned. simpl. by repeat f_equal.
Qed.

Lemma cleaned_rows_are_clean_witness :
  exists r, cleaned sample_row = Some r /\ cleaned r = Some r.
Proof.
  assert (exists r, cleaned sample_row = Some r) as [r Hr]
    by (eexists; vm_compute; reflexivity).
  exists r. split; [exact Hr|].
  by destruct (cleaned_rows_are_clean sample_row r Hr) as (_ & Hc & _).
Defined.

(** ** The identifier and the duration *)

Section Extraction.

Lemma strip_prefix_Some pre : forall s r,
  Py.strip_prefix pre s = Some r <-> s = pre +:+ r.
Proof.
  induction pre as [|a pre IH]; intros s r; simpl.
  - rewrite append_empty_l. split; congruence.
  - destruct s as [|b s]; [split; [done|]; by rewrite append_cons|].
    rewrite append_cons. destruct (Ascii.eqb_spec a b) as [->|Hne].
    + rewrite IH. split; [by intros -> | by intros [= ->]].
    + split; [done | by intros [= -> _]].
Qed.

Lemma take_while_split p s :
  exists post,
    s = Py.take_while p s +:+ post /\
    all_chars p (Py.take_while p s) = true /\
    forall c, first_char post = Some c -> p c = false.
Proof.
  induction s as [|a s IH]; simpl.
  - exists EmptyString. done.
  - destruct (p a) eqn:Hp.
    + destruct IH as (post & Hs & Ha & Hf). exists post.
      rewrite append_cons, <- Hs. simpl. rewrite Hp. done.
    + exists (String a s). split; [done|]. split; [done|].
      simpl. by intros c [= <-].
Qed.

Lemma match_video_Some s g :
  Py.match_video s = Some g ->
  Py.truthy g = true /\ all_chars Py.lower_alnum g = true /\
  exists post,
    s = "video." +:+ g +:+ post /\
    forall c, first_char post = Some c -> Py.lower_alnum c = false.
Proof.
  unfold Py.match_video.
  destruct (Py.strip_prefix "video." s) as [r|] eqn:Hr; [|done].
  apply strip_prefix_Some in Hr.
  destruct (take_while_split Py.lower_alnum r) as (post & Hs & Ha & Hf).
  destruct (Py.truthy (Py.take_while Py.lower_alnum r)) eqn:Ht; [|done].
  intros [= <-]. split; [done|]. split; [done|].
  exists post. by rewrite <- Hs.
Qed.

Lemma search_video_Some s : forall g,
  Py.search_video s = Some g ->
  Py.truthy g = true /\ all_chars Py.lower_alnum g = true /\
  exists pre post,
    s = pre +:+ "video." +:+ g +:+ post /\
    forall c, first_char post = Some c -> Py.lower_alnum c = false.
Proof.
  induction s as [|a s IH]; intros g; cbn [Py.search_video].
  - destruct (Py.match_video EmptyString) as [g'|] eqn:Hm; [|done].
    intros [= <-]. destruct (match_video_Some _ _ Hm) as (? & ? & post & ? & ?).
    split; [done|]. split; [done|]. by exists EmptyString, post.
  - destruct (Py.match_video (String a s)) as [g'|] eqn:Hm.
    + intros [= <-].
      destruct (match_video_Some _ _ Hm) as (? & ? & post & ? & ?).
      split; [done|]. split; [done|]. by exists EmptyString, post.
    + intros Hs. destruct (IH g Hs) as (? & ? & pre & post & -> & ?).
      split; [done|]. split; [done|]. by exists (String a pre), post.
Qed.

Lemma match_video_here c post :
  Py.lower_alnum c = true ->
  exists g, Py.match_video ("video." +:+ String c post) = Some g.
Proof.
  intros Hc. unfold Py.match_video.
  rewrite (proj2 (strip_prefix_Some "video." _ (String c post)) eq_refl).
  simpl. rewrite Hc. simpl. eauto.
Qed.

Lemma search_video_None s :
  Py.search_video s = None ->
  forall pre c post,
    s = pre +:+ "video." +:+ String c post -> Py.lower_alnum c = false.
Proof.
  intros Hs pre. revert s Hs.
  induction pre as [|a pre IH]; intros s Hs c post ->.
  - destruct (Py.lower_alnum c) eqn:Hc; [|done].
    destruct (match_video_here c post Hc) as [g Hg].
    rewrite append_empty_l in Hs.
    destruct ("video." +:+ String c post) eqn:Heq; cbn [Py.search_video] in Hs;
      by rewrite Hg in Hs.
  - rewrite append_cons in Hs. cbn [Py.search_video] in Hs.
    destruct (Py.match_video _); [done|]. by eapply IH.
Qed.

Lemma decimal_nonneg s : forall acc, 0 <= acc -> 0 <= decimal acc s.
Proof.
  induction s as [|c s IH]; intros acc Hacc; simpl; [done|].
  destruct (Py.digit c) as [v|] eqn:Hv; [|by apply IH].
  apply IH. unfold Py.digit in Hv.
  destruct ((48 <=? Py.code c)%N && (Py.code c <=? 57)%N) eqn:Hr; [|done].
  injection Hv as <-. apply andb_prop in Hr as [H1%N.leb_le _]. lia.
Qed.

Lemma int_digits_all_digits s :
  all_chars Py.isdigit s = true ->
  forall acc, Py.int_digits acc s = Some (decimal acc s).
Proof.
  induction s as [|c s IH]; simpl; [done|].
  intros [Hc Hs]%andb_prop acc.
  destruct (digit_char c Hc) as (_ & _ & Hu & _ & [v Hv] & _).
  rewrite Hu, Hv. by apply IH.
Qed.

Lemma rstrip_all_digits s :
  all_chars Py.isdigit s = true -> Py.int_rstrip s = s.
Proof.
  induction s as [|c s IH]; simpl; [done|].
  intros [Hc Hs]%andb_prop. rewrite (IH Hs).
  destruct (digit_char c Hc) as (_ & Hsp & _). rewrite Hsp.
  by destruct s.
Qed.

Lemma count_digits_all_digits s :
  all_chars Py.isdigit s = true ->
  Py.count_digits s = Z.of_nat (String.length s).
Proof.
  induction s as [|c s IH]; [done|].
  cbn [all_chars Py.count_digits String.length].
  intros [Hc Hs]%andb_prop. rewrite Hc, (IH Hs). lia.
Qed.

Lemma length_append (a b : string) :
  String.length (a +:+ b) = (String.length a + String.length b)%nat.
Proof.
  induction a as [|c a IH]; [by rewrite append_empty_l|].
  rewrite append_cons. simpl. by rewrite IH.
Qed.

(** [int] reads a non-empty text of digits as its decimal value, if the
    digits are no more than the limit, and refuses it otherwise. *)
Lemma int_all_digits s :
  all_chars Py.isdigit s = true -> Py.truthy s = true ->
  Py.int s
  = if bool_decide (Z.of_nat (String.length s) <= 4300)
    then Some (decimal 0 s) else None.
Proof.
  intros Hs Ht. rewrite <- (count_digits_all_digits s Hs).
  destruct s as [|c s]; [done|].
  pose proof Hs as [Hc Hs']%andb_prop.
  destruct (digit_char c Hc) as (_ & Hsp & Hu & _ & [v Hv] & Hsig).
  unfold Py.int. rewrite lstrip_digit by done.
  rewrite rstrip_all_digits by done. unfold Py.int_max_str_digits.
  case_bool_decide; [|done].
  rewrite Hsig. simpl. rewrite Hv.
  by apply int_digits_all_digits.
Qed.

Lemma search_digits_Some s : forall g,
  Py.search_digits s = Some g ->
  Py.truthy g = true /\ all_chars Py.isdigit g = true /\
  exists pre post,
    s = pre +:+ g +:+ post /\ has_digit pre = false /\
    forall c, first_char post = Some c -> Py.isdigit c = false.
Proof.
  induction s as [|a s IH]; intros g; [done|]. cbn [Py.search_digits].
  destruct (Py.isdigit a) eqn:Ha.
  - intros [= <-].
    destruct (take_while_split Py.isdigit (String a s)) as (post & Hs & Hall & Hf).
    split; [simpl; by rewrite Ha|]. split; [done|].
    exists EmptyString, post. done.
  - intros Hs. destruct (IH g Hs) as (? & ? & pre & post & -> & Hp & ?).
    split; [done|]. split; [done|].
    exists (String a pre), post. split; [done|]. simpl. by rewrite Ha.
Qed.

Lemma search_digits_None s :
  Py.search_digits s = None <-> has_digit s = false.
Proof.
  induction s as [|a s IH]; simpl; [done|].
  destruct (Py.isdigit a); [done | exact IH].
Qed.

End Extraction.

(** X6: [extract_video_id] is the same function in both loaders.  The
    identifier it returns is a non-empty text of characters a-z and 0-9
    that stands in the URL right after [video.] and is followed by no
    further such character; and it returns none exactly when the URL holds
    no [video.] followed by such a character. *)
Theorem extract_video_id_finds_the_identifier (url : string) :
  ImportCleanData.extract_video_id url
    = ImportCsvPostgres.extract_video_id url /\
  (forall g,
     ImportCleanData.extract_video_id url = Some g ->
     g <> EmptyString /\ all_chars Py.lower_alnum g = true /\
     exists pre post,
       url = pre +:+ "video." +:+ g +:+ post /\
       forall c, first_char post = Some c -> Py.lower_alnum c = false) /\
  (ImportCleanData.extract_video_id url = None <->
   forall pre c post,
     url = pre +:+ "video." +:+ String c post -> Py.lower_alnum c = false).
Proof.
  assert (ImportCleanData.extract_video_id url = Py.search_video url) as Heq.
  { unfold ImportCleanData.extract_video_id. by destruct url. }
  rewrite Heq. split; [done|]. split.
  - intros g Hg. destruct (search_video_Some url g Hg) as (Ht & Ha & Hocc).
    split; [by destruct g|]. done.
  - split; [apply search_video_None|].
    intros Hno. destruct (Py.search_video url) as [g|] eqn:Hg; [|done].
    destruct (search_video_Some url g Hg)
      as (Ht & Ha & pre & post & Hurl & _).
    destruct g as [|c g]; [done|]. simpl in Ha.
    apply andb_prop in Ha as [Hc _].
    rewrite append_cons in Hurl. by rewrite (Hno _ _ _ Hurl) in Hc.
Qed.

Lemma extract_video_id_finds_the_identifier_witness :
  ImportCleanData.extract_video_id "https://site/video.abc123/x"
    = Some "abc123" /\
  all_chars Py.lower_alnum "abc123" = true.
Proof.
  split; [reflexivity|].
  destruct (extract_video_id_finds_the_identifier
              "https://site/video.abc123/x") as (_ & H & _).
  by destruct (H "abc123" eq_refl) as (_ & Ha & _).
Defined.

(** What [parse_duration] returns on a text with a digit, from the run of
    digits [\d+] matches. *)
Lemma parse_duration_search s g :
  Py.search_digits s = Some g ->
  ImportCleanData.parse_duration s
  = if bool_decide (Z.of_nat (String.length g) <= 4300)
    then Ok (Some (decimal 0 g)) else Raise ValueError.
Proof.
  intros Hg. destruct (search_digits_Some s g Hg) as (Ht & Ha & _).
  unfold ImportCleanData.parse_duration.
  destruct s as [|a s]; [done|]. cbn [Py.truthy negb]. rewrite Hg.
  unfold int_of. rewrite (int_all_digits g Ha Ht).
  by case_bool_decide.
Qed.

(** X7: [parse_duration] is the same function in both loaders.  It
    returns none exactly on the texts without a digit.  On a text with a
    digit it looks at the first run of digits, whatever comes before and
    after: it returns the decimal value of the run, which is not negative,
    when the run has at most 4300 digits, and raises [ValueError] when it
    has more, [int] refusing such a text.  It raises nothing else, and
    nothing on a text of at most 4300 characters. *)
Theorem parse_duration_reads_the_first_number (s : string) :
  ImportCleanData.parse_duration s = ImportCsvPostgres.parse_duration s /\
  (ImportCleanData.parse_duration s = Ok None <-> has_digit s = false) /\
  (has_digit s = true ->
   exists pre g post,
     s = pre +:+ g +:+ post /\ has_digit pre = false /\
     Py.truthy g = true /\ all_chars Py.isdigit g = true /\
     (forall c, first_char post = Some c -> Py.isdigit c = false) /\
     0 <= decimal 0 g /\
     ImportCleanData.parse_duration s
     = if bool_decide (Z.of_nat (String.length g) <= 4300)
       then Ok (Some (decimal 0 g)) else Raise ValueError) /\
  (forall e,
     ImportCleanData.parse_duration s = Raise e ->
     e = ValueError /\ 4300 < Z.of_nat (String.length s)) /\
  (Z.of_nat (String.length s) <= 4300 ->
   exists d, ImportCleanData.parse_duration s = Ok d).
Proof.
  split; [done|].
  assert (has_digit s = true ->
          exists pre g post,
            s = pre +:+ g +:+ post /\ has_digit pre = false /\
            Py.truthy g = true /\ all_chars Py.isdigit g = true /\
            (forall c, first_char post = Some c -> Py.isdigit c = false) /\
            0 <= decimal 0 g /\
            ImportCleanData.parse_duration s
            = if bool_decide (Z.of_nat (String.length g) <= 4300)
              then Ok (Some (decimal 0 g)) else Raise ValueError) as Hrun.
  { intros Hd. destruct (Py.search_digits s) as [g|] eqn:Hg;
      [|apply search_digits_None in Hg; congruence].
    destruct (search_digits_Some s g Hg)
      as (Ht & Ha & pre & post & Hs & Hp & Hf).
    exists pre, g, post. repeat (split; [done|]).
    split; [by apply decimal_nonneg | by apply parse_duration_search]. }
  assert (has_digit s = false -> ImportCleanData.parse_duration s = Ok None)
    as Hnone.
  { intros Hd. apply search_digits_None in Hd.
    unfold ImportCleanData.parse_duration. rewrite Hd. by destruct s. }
  assert (forall e,
            ImportCleanData.parse_duration s = Raise e ->
            e = ValueError /\ 4300 < Z.of_nat (String.length s)) as Hraise.
  { intros e He. destruct (has_digit s) eqn:Hd;
      [|by rewrite Hnone in He].
    destruct (Hrun eq_refl) as (pre & g & post & Hs & _ & _ & _ & _ & _ & Hv).
    rewrite Hv in He. case_bool_decide as Hlen; [done|].
    injection He as <-. split; [done|].
    rewrite Hs, !length_append. lia. }
  split; [|split; [exact Hrun|split; [exact Hraise|]]].
  - split; [|exact Hnone]. intros Hv.
    destruct (has_digit s) eqn:Hd; [|done].
    destruct (Hrun eq_refl) as (pre & g & post & _ & _ & _ & _ & _ & _ & Hg).
    rewrite Hg in Hv. by case_bool_decide.
  - intros Hlen.
    destruct (ImportCleanData.parse_duration s) as [d|e] eqn:Hv; [eauto|].
    destruct (Hraise e eq_refl). lia.
Qed.

Lemma parse_duration_reads_the_first_number_witness :
  exists g,
    ImportCleanData.parse_duration "1305 sec"
    = (if bool_decide (Z.of_nat (String.length g) <= 4300)
       then Ok (Some (decimal 0 g)) else Raise ValueError) /\
    Py.truthy g = true.
Proof.
  destruct (parse_duration_reads_the_first_number "1305 sec")
    as (_ & _ & H & _).
  destruct (H eq_refl) as (pre & g & post & _ & _ & Ht & _ & _ & _ & Hv).
  exists g. split; [exact Hv | exact Ht].
Defined.

(** ** The batch loader over a whole file *)

Section BatchRuns.
Import ImportCleanData.
Context {S : Type} `{Database S}.

Lemma records_of_snoc rows r :
  records_of (rows ++ [r]) = records_of rows ++ records_of [r].
Proof. unfold records_of. by rewrite omap_app. Qed.

Lemma records_of_cons r rows :
  records_of (r :: rows) = records_of [r] ++ records_of rows.
Proof. unfold records_of. simpl. by destruct (record_of r). Qed.

Lemma records_of_record r m :
  derive r = Ok (Some m) -> records_of [r] = [m].
Proof. intros Hm. unfold records_of, record_of. simpl. by rewrite Hm. Qed.

Lemma records_of_no_record r :
  (forall m, derive r <> Ok (Some m)) -> records_of [r] = [].
Proof.
  intros Hno. unfold records_of, record_of. simpl.
  destruct (derive r) as [[m|]|e]; [by destruct (Hno m) | done | done].
Qed.

Lemma derive_cases r :
  (exists m, derive r = Ok (Some m)) \/ (forall m, derive r <> Ok (Some m)).
Proof. destruct (derive r) as [[m|]|e]; eauto. Qed.

(** What one iteration does to the counters, whatever the database does:
    a row without a record adds one to [skipped]; a row with a record
    adds the record, and then everything pending is imported, or stays
    pending (with one more skip if a submission failed). *)
Lemma process_row_counts (bs : Z) (st : loader S) (r : row) :
  let st' := process_row bs st r in
  imported st' + Z.of_nat (length (batch st'))
  = imported st + Z.of_nat (length (batch st))
    + Z.of_nat (length (records_of [r])) /\
  skipped st
    + (Z.of_nat 1 - Z.of_nat (length (records_of [r]))) <= skipped st'
  /\ skipped st' <= skipped st + 1.
Proof.
  destruct (derive_cases r) as [[m Hm]|Hno].
  - rewrite (records_of_record r m Hm). unfold process_row, row_body.
    rewrite Hm. unfold flush, submit. case_bool_decide; simpl.
    + destruct (executemany (db st) (batch st ++ [m])) as [d [e|]]; simpl.
      * rewrite length_app. simpl. lia.
      * destruct (commit d) as [d' [e|]]; simpl; rewrite length_app;
          simpl; lia.
    + rewrite length_app. simpl. lia.
  - rewrite (records_of_no_record r Hno).
    rewrite (process_row_no_record bs st r Hno). simpl. lia.
Qed.

Lemma process_rows_counts (bs : Z) (rows : list row) : forall st : loader S,
  let st' := process_rows bs st rows in
  imported st' + Z.of_nat (length (batch st'))
  = imported st + Z.of_nat (length (batch st))
    + Z.of_nat (length (records_of rows)) /\
  skipped st + (Z.of_nat (length rows) - Z.of_nat (length (records_of rows)))
    <= skipped st'
  /\ skipped st' <= skipped st + Z.of_nat (length rows).
Proof.
  induction rows as [|r rows IH]; intros st; [simpl; lia|].
  unfold process_rows. cbn [foldl].
  specialize (IH (process_row bs st r)). unfold process_rows in IH.
  destruct (process_row_counts bs st r) as (H1 & H2 & H3).
  simpl in IH, H1, H2, H3. destruct IH as (I1 & I2 & I3).
  rewrite (records_of_cons r rows), length_app. simpl length. lia.
Qed.

(** Everything pending or handed to the database comes from a row. *)
Lemma process_rows_records (P : MediaRecord -> Prop) (bs : Z)
  (rows : list row) : forall st : loader S,
  (forall r m, r ∈ rows -> derive r = Ok (Some m) -> P m) ->
  Forall P (batch st) -> Forall (Forall P) (calls st) ->
  Forall P (batch (process_rows bs st rows))
  /\ Forall (Forall P) (calls (process_rows bs st rows)).
Proof.
  induction rows as [|r rows IH]; intros st HP Hb Hc; [done|].
  unfold process_rows. cbn [foldl]. apply IH.
  - intros r' m Hr'. apply HP. by right.
  - destruct (derive_cases r) as [[m Hm]|Hno].
    + assert (Forall P (batch st ++ [m])) as Hbm.
      { apply Forall_app. split; [done|]. constructor; [|done].
        apply (HP r m); [by left | done]. }
      unfold process_row, row_body. rewrite Hm. unfold flush, submit.
      case_bool_decide; simpl; [|done].
      destruct (executemany (db st) (batch st ++ [m])) as [d [e|]]; [done|].
      by destruct (commit d) as [d' [e|]].
    + by rewrite (process_row_no_record bs st r Hno).
  - destruct (derive_cases r) as [[m Hm]|Hno].
    + assert (Forall P (batch st ++ [m])) as Hbm.
      { apply Forall_app. split; [done|]. constructor; [|done].
        apply (HP r m); [by left | done]. }
      assert (Forall (Forall P) (calls st ++ [batch st ++ [m]])) as Hcm.
      { apply Forall_app. split; [done|]. by constructor. }
      unfold process_row, row_body. rewrite Hm. unfold flush, submit.
      case_bool_decide; simpl; [|done].
      destruct (executemany (db st) (batch st ++ [m])) as [d [e|]]; [done|].
      by destruct (commit d) as [d' [e|]].
    + by rewrite (process_row_no_record bs st r Hno).
Qed.

End BatchRuns.

Section BatchTotals.
Import ImportCleanData.
Context {S : Type} `{Database S}.

(** X8: whatever the database does, after the loop the records imported
    and the records pending are the records the rows yield, and [skipped]
    is at least the number of rows without a record and at most the number
    of rows.  So when the last submission succeeds, or nothing is pending,
    the run reports every record as imported, including those of batches
    that failed earlier and were submitted again; and when the last
    submission raises it reports 0 imported and 0 skipped, whatever was
    committed before. *)
Theorem import_rows_totals (bs : Z) (d : S) (rows : list row) :
  let st := process_rows bs (start d) rows in
  let n := Z.of_nat (length rows) in
  let k := Z.of_nat (length (records_of rows)) in
  imported st + Z.of_nat (length (batch st)) = k /\
  n - k <= skipped st <= n /\
  (batch st = [] ->
   import_rows bs d rows = ((k, skipped st), st)) /\
  (batch st <> [] -> (submit st).2 = None ->
   (import_rows bs d rows).1 = (k, skipped st)
   /\ batch (import_rows bs d rows).2 = []
   /\ calls (import_rows bs d rows).2 = calls st ++ [batch st]) /\
  (batch st <> [] -> (submit st).2 <> None ->
   (import_rows bs d rows).1 = (0, 0)).
Proof.
  intros st n k.
  destruct (process_rows_counts bs rows (start d)) as (Hi & Hs1 & Hs2).
  fold st in Hi, Hs1, Hs2. simpl in Hi, Hs1, Hs2. fold n k in Hi, Hs1, Hs2.
  split; [lia|]. split; [lia|]. unfold import_rows. fold st.
  split; [|split].
  - intros Hb. rewrite Hb in *. simpl in Hi. do 2 f_equal. lia.
  - intros Hb Hok. destruct (batch st) as [|m b] eqn:Hbatch; [done|].
    destruct (submit st) as [st' [e|]] eqn:Hsub; [done|]. simpl.
    unfold submit in Hsub.
    destruct (executemany (db st) (batch st)) as [d1 [e|]]; [done|].
    destruct (commit d1) as [d2 [e|]]; [done|].
    injection Hsub as <-. simpl. rewrite Hbatch in *.
    split; [|done]. do 2 f_equal. lia.
  - intros Hb Hko. destruct (batch st) as [|m b] eqn:Hbatch; [done|].
    by destruct (submit st) as [st' [e|]] eqn:Hsub.
Qed.


(** X9: with a batch size of at least one and a database that never
    raises, every row is counted once, as imported if it yields a record
    and as skipped if not; the batches handed to the database, one after
    the other, are the records of the rows in the order of the rows; and
    every batch holds exactly [bs] records, but the last one, which holds
    at least one and at most [bs]. *)
Theorem accepted_file_is_loaded_in_order (bs : Z) (d : S) (rows : list row) :
  0 < bs ->
  (forall d' b, (executemany d' b).2 = None) ->
  (forall d', (commit d').2 = None) ->
  let result := import_rows bs d rows in
  let n := Z.of_nat (length rows) in
  let k := Z.of_nat (length (records_of rows)) in
  result.1 = (k, n - k) /\
  batch result.2 = [] /\
  concat (calls result.2) = records_of rows /\
  forall (i : nat) (b : list MediaRecord),
    calls result.2 !! i = Some b ->
    1 <= Z.of_nat (length b) <= bs /\
    ((i + 1 < length (calls result.2))%nat -> Z.of_nat (length b) = bs).
Proof.
  intros Hbs Hexec Hcommit result n k.
  assert (forall st : loader S, (submit st).2 = None) as Hsubmit.
  { intros st. unfold submit. specialize (Hexec (db st) (batch st)).
    destruct (executemany (db st) (batch st)) as [d1 [e|]]; [done|].
    specialize (Hcommit d1). by destruct (commit d1) as [d2 [e|]]. }
  assert (forall rows' (st : loader S),
            Z.of_nat (length (batch st)) < bs ->
            Forall (fun b => Z.of_nat (length b) = bs) (calls st) ->
            let st' := process_rows bs st rows' in
            Z.of_nat (length (batch st')) < bs /\
            Forall (fun b => Z.of_nat (length b) = bs) (calls st') /\
            concat (calls st') ++ batch st'
            = (concat (calls st) ++ batch st) ++ records_of rows' /\
            skipped st'
            = skipped st + Z.of_nat (length rows')
              - Z.of_nat (length (records_of rows'))) as Hloop.
  { induction rows' as [|r rows' IH]; intros st Hlt Hfull.
    - simpl. rewrite app_nil_r. repeat split; try done. lia.
    - unfold process_rows. cbn [foldl].
      rewrite (records_of_cons r rows').
      assert (let s1 := process_row bs st r in
              Z.of_nat (length (batch s1)) < bs /\
              Forall (fun b => Z.of_nat (length b) = bs) (calls s1) /\
              concat (calls s1) ++ batch s1
              = (concat (calls st) ++ batch st) ++ records_of [r] /\
              skipped s1
              = skipped st + 1 - Z.of_nat (length (records_of [r])))
        as (H1 & H2 & H3 & H4).
      { destruct (derive_cases r) as [[m Hm]|Hno].
        - rewrite (records_of_record r m Hm).
          unfold process_row, row_body. rewrite Hm. unfold flush.
          case_bool_decide as Hfl; simpl in Hfl.
          + pose proof (Hsubmit (append st m)) as Hok.
            unfold submit in *. simpl in *.
            destruct (executemany (db st) (batch st ++ [m])) as [d1 [e|]];
              [done|].
            destruct (commit d1) as [d2 [e|]]; [done|]. simpl.
            rewrite length_app in Hfl. simpl in Hfl.
            split; [lia|]. split.
            * apply Forall_app. split; [done|]. constructor; [|done].
              rewrite length_app. simpl. lia.
            * rewrite concat_app. simpl. rewrite !app_nil_r.
              split; [by rewrite app_assoc | lia].
          + simpl. rewrite length_app in *. simpl in *.
            split; [lia|]. split; [done|].
            split; [by rewrite app_assoc | lia].
        - rewrite (records_of_no_record r Hno).
          rewrite (process_row_no_record bs st r Hno). simpl.
          rewrite app_nil_r. repeat split; try done. lia. }
      destruct (IH (process_row bs st r) H1 H2) as (I1 & I2 & I3 & I4).
      unfold process_rows in I1, I2, I3, I4.
      split; [done|]. split; [done|]. split.
      + rewrite I3, H3. by rewrite <- !app_assoc.
      + rewrite I4, H4, length_app. simpl length. lia. }
  destruct (Hloop rows (start d)) as (L1 & L2 & L3 & L4);
    [simpl; lia | done |].
  simpl in L3, L4.
  destruct (import_rows_totals bs d rows) as (T1 & T2 & T3 & T4 & _).
  set (st := process_rows bs (start d) rows) in *.
  fold n k in T1, T2, T3, T4, L4.
  destruct (batch st) as [|m b] eqn:Hb.
  - unfold result. rewrite (T3 eq_refl). simpl.
    rewrite app_nil_r in L3.
    split; [do 2 f_equal; lia|]. split; [done|]. split; [done|].
    intros i c Hc.
    pose proof (proj1 (Forall_lookup _ _) L2 i c Hc) as Hlen. simpl in Hlen.
    split; lia.
  - destruct (T4 ltac:(done) (Hsubmit st)) as (R1 & R2 & R3).
    fold result in R1, R2, R3.
    split; [rewrite R1; do 2 f_equal; lia|]. split; [done|].
    rewrite R3. split.
    + rewrite concat_app. simpl. by rewrite app_nil_r.
    + intros i c Hc. rewrite length_app. simpl.
      apply lookup_app_Some in Hc as [Hc|[Hge Hc]].
      * pose proof (proj1 (Forall_lookup _ _) L2 i c Hc) as Hlen.
        simpl in Hlen. split; lia.
      * apply list_lookup_singleton_Some in Hc as [Hz <-].
        simpl in L1. simpl. split; [lia|]. lia.
Qed.


(** X10: whatever the database does, every record that is pending or was
    handed to it comes from a row of the file and has a title, a URL and
    a thumbnail. *)
Theorem only_gated_records_are_submitted
  (bs : Z) (d : S) (rows : list row) :
  let st := (import_rows bs d rows).2 in
  forall (b : list MediaRecord) (m : MediaRecord),
    b ∈ batch st :: calls st -> m ∈ b ->
    (exists r, r ∈ rows /\ derive r = Ok (Some m)) /\
    Py.truthy (title m) = true /\ Py.truthy (source_url m) = true /\
    Py.truthy (thumbnail_url m) = true.
Proof.
  set (P := fun m : MediaRecord =>
              (exists r, r ∈ rows /\ derive r = Ok (Some m)) /\
              Py.truthy (title m) = true /\
              Py.truthy (source_url m) = true /\
              Py.truthy (thumbnail_url m) = true).
  destruct (process_rows_records P bs rows (start d)) as [Hb Hc]; try done.
  { intros r m Hr Hm. split; [eauto|].
    destruct (derive_some r m Hm) as (? & ? & ? & _). done. }
  set (st0 := process_rows bs (start d) rows) in *.
  assert (Forall (Forall P) (batch (submit st0).1 :: calls (submit st0).1))
    as Hsub.
  { assert (Forall (Forall P) (calls st0 ++ [batch st0])) as Hcalls
      by (apply Forall_app; split; [done | by constructor]).
    unfold submit.
    destruct (executemany (db st0) (batch st0)) as [d1 [e|]]; simpl;
      [by constructor|].
    destruct (commit d1) as [d2 [e|]]; simpl; by constructor. }
  assert (Forall (Forall P) (batch (import_rows bs d rows).2
                             :: calls (import_rows bs d rows).2)) as Hall.
  { unfold import_rows. fold st0.
    destruct (batch st0) as [|m0 b0] eqn:Hbatch.
    - simpl. rewrite Hbatch. by constructor.
    - by destruct (submit st0) as [st' [e|]]. }
  intros st b m Hbin Hmin.
  pose proof (proj1 (Forall_forall _ _) Hall b Hbin) as Hbp.
  exact (proj1 (Forall_forall _ _) Hbp m Hmin).
Qed.

End BatchTotals.

Lemma import_rows_totals_witness :
  (ImportCleanData.import_rows
     (S := list (list ImportCleanData.MediaRecord))
     ImportCleanData.batch_size []
     (ImportCleanData.dict_reader [ReadFile.header; sample_row; short_row])).1
  = (1, 1).
Proof.
  destruct (import_rows_totals
              (S := list (list ImportCleanData.MediaRecord))
              ImportCleanData.batch_size []
              (ImportCleanData.dict_reader
                 [ReadFile.header; sample_row; short_row]))
    as (_ & _ & _ & Hok & _).
  destruct Hok as (Hr & _).
  - vm_compute. discriminate.
  - vm_compute. reflexivity.
  - rewrite Hr. vm_compute. reflexivity.
Defined.

Lemma accepted_file_is_loaded_in_order_witness :
  (ImportCleanData.import_rows
     (S := list (list ImportCleanData.MediaRecord)) 1 []
     (ImportCleanData.dict_reader
        [ReadFile.header; sample_row; short_row; sample_row])).1
  = (2, 1).
Proof.
  destruct (accepted_file_is_loaded_in_order
              (S := list (list ImportCleanData.MediaRecord)) 1 []
              (ImportCleanData.dict_reader
                 [ReadFile.header; sample_row; short_row; sample_row]))
    as (Hr & _).
  - lia.
  - reflexivity.
  - reflexivity.
  - rewrite Hr. vm_compute. reflexivity.
Defined.

Lemma only_gated_records_are_submitted_witness :
  Forall (fun m => Py.truthy (ImportCleanData.title m) = true)
         (concat
            (ImportCleanData.calls
               (ImportCleanData.import_rows
                  (S := list (list ImportCleanData.MediaRecord)) 1 []
                  (ImportCleanData.dict_reader
                     [ReadFile.header; sample_row])).2)).
Proof.
  apply Forall_forall. intros m Hin.
  rewrite list_elem_of_In, in_concat in Hin. destruct Hin as [b [Hb Hm]].
  apply list_elem_of_In in Hb. apply list_elem_of_In in Hm.
  eapply (only_gated_records_are_submitted
            (S := list (list ImportCleanData.MediaRecord)) 1 []
            (ImportCleanData.dict_reader [ReadFile.header; sample_row])).
  - right. exact Hb.
  - exact Hm.
Defined.

(** ** Lines of a partition file, blank, short, long and cleaned *)

Section PartitionLines.
Import ImportCleanData.

Lemma derive_long_line
  (f0 f1 f2 f3 f4 f5 f6 f7 f8 f9 f10 f11 f12 f13 f14 : string)
  (rest : list string) :
  derive
    (dict_row ReadFile.header
       (f0 :: f1 :: f2 :: f3 :: f4 :: f5 :: f6 :: f7 :: f8 :: f9 :: f10
           :: f11 :: f12 :: f13 :: f14 :: rest))
  = derive
      (dict_row ReadFile.header
         [f0; f1; f2; f3; f4; f5; f6; f7; f8; f9; f10; f11; f12; f13; f14]).
Proof. reflexivity. Qed.

Lemma derive_line_without_status
  (f0 f1 f2 f3 f4 f5 f6 f7 f8 f9 f10 f11 f12 f13 f14 : string) :
  derive
    (dict_row ReadFile.header
       [f0; f1; f2; f3; f4; f5; f6; f7; f8; f9; f10; f11; f12; f13])
  = derive
      (dict_row ReadFile.header
         [f0; f1; f2; f3; f4; f5; f6; f7; f8; f9; f10; f11; f12; f13; f14]).
Proof. reflexivity. Qed.

Lemma derive_short_line (fields : list string) :
  (length fields <= 13)%nat ->
  derive (dict_row ReadFile.header fields) = Raise AttributeError.
Proof.
  intros Hlen.
  do 14 (destruct fields as [|? fields]; [reflexivity|]).
  simpl in Hlen. lia.
Qed.

(** The reader yields one row for each line that is not blank. *)
Lemma dict_reader_rows (fieldnames : list string) (lines : list (list string)) :
  dict_reader (fieldnames :: lines)
  = dict_row fieldnames <$> filter (fun fields => fields <> []) lines.
Proof. reflexivity. Qed.

Lemma dict_reader_blank (fieldnames : list string)
  (before after : list (list string)) :
  dict_reader (fieldnames :: before ++ [] :: after)
  = dict_reader (fieldnames :: before ++ after).
Proof.
  rewrite !dict_reader_rows, !filter_app, filter_cons_False; by auto.
Qed.

Lemma dict_reader_line (fieldnames fields : list string) :
  fields <> [] ->
  dict_reader [fieldnames; fields] = [dict_row fieldnames fields].
Proof.
  intros Hne. rewrite dict_reader_rows, filter_cons_True by done.
  by rewrite filter_nil.
Qed.

End PartitionLines.

Section ShortLines.
Context {S : Type} `{ImportCleanData.Database S}.

(** X11: the batch loader reads the columns of a line by the names of the
    header.  The reader yields no row for a blank line, which is neither
    imported nor skipped, and one row for any other line.  A line of a
    partition file with one to thirteen fields lacks a column the loader
    strips, which raises; the handler counts the line as skipped.  A line
    of fourteen fields lacks only the status, which is never read, and a
    line of more than fifteen fields has its extra fields ignored. *)
Theorem short_lines_are_skipped
  (bs : Z) (st : ImportCleanData.loader S) (fields : list string) :
  (forall before after : list (list string),
     ImportCleanData.dict_reader (ReadFile.header :: before ++ [] :: after)
     = ImportCleanData.dict_reader (ReadFile.header :: before ++ after)) /\
  (fields <> [] ->
   ImportCleanData.dict_reader [ReadFile.header; fields]
   = [ImportCleanData.dict_row ReadFile.header fields]) /\
  ((1 <= length fields <= 13)%nat ->
   ImportCleanData.derive (ImportCleanData.dict_row ReadFile.header fields)
   = Raise AttributeError /\
   ImportCleanData.process_row
     bs st (ImportCleanData.dict_row ReadFile.header fields)
   = ImportCleanData.skip st /\
   foldl (ImportCleanData.process_row bs) st
         (ImportCleanData.dict_reader [ReadFile.header; fields])
   = ImportCleanData.skip st) /\
  (length fields = 14%nat ->
   forall status,
     ImportCleanData.derive (ImportCleanData.dict_row ReadFile.header fields)
     = ImportCleanData.derive
         (ImportCleanData.dict_row ReadFile.header (fields ++ [status]))) /\
  ((15 <= length fields)%nat ->
   ImportCleanData.derive (ImportCleanData.dict_row ReadFile.header fields)
   = ImportCleanData.derive
       (ImportCleanData.dict_row ReadFile.header (take 15 fields))).
Proof.
  split; [intros; apply dict_reader_blank|].
  split; [apply dict_reader_line|]. split; [|split].
  - intros [Hpos Hlen]. pose proof (derive_short_line fields Hlen) as Hd.
    assert (ImportCleanData.process_row
              bs st (ImportCleanData.dict_row ReadFile.header fields)
            = ImportCleanData.skip st) as Hp.
    { apply process_row_no_record. intros m. by rewrite Hd. }
    split; [done|]. split; [done|].
    rewrite dict_reader_line by (by destruct fields; [simpl in Hpos; lia|]).
    exact Hp.
  - intros Hlen status.
    do 14 (destruct fields as [|? fields]; [discriminate Hlen|]).
    destruct fields; [|discriminate Hlen]. apply derive_line_without_status.
  - intros Hlen.
    do 15 (destruct fields as [|? fields]; [simpl in Hlen; lia|]).
    apply derive_long_line.
Qed.

End ShortLines.

Lemma short_lines_are_skipped_witness :
  ImportCleanData.process_row
    (S := list (list ImportCleanData.MediaRecord))
    ImportCleanData.batch_size (ImportCleanData.start [])
    (ImportCleanData.dict_row ReadFile.header short_row)
  = ImportCleanData.skip (ImportCleanData.start []).
Proof.
  destruct (short_lines_are_skipped
              (S := list (list ImportCleanData.MediaRecord))
              ImportCleanData.batch_size (ImportCleanData.start [])
              short_row) as (_ & _ & Hshort & _).
  destruct Hshort as (_ & Hp & _); [simpl; lia|]. exact Hp.
Defined.

(** X12: a row the partitioner has written is loaded as the line it was
    cleaned from would be: the loader strips the fields again, which
    changes nothing.  On such a row the loader raises nothing but the
    [ValueError] of an unreadable duration, which a row with a title and a
    URL raises, and it builds a record exactly when the stripped title, URL
    and resolved thumbnail of the line are non-empty and the duration is
    readable. *)
Theorem cleaned_rows_load_like_their_lines (row r : list string) :
  cleaned row = Some r ->
  ImportCleanData.dict_reader [ReadFile.header; r]
  = [ImportCleanData.dict_row ReadFile.header r] /\
  ImportCleanData.derive (ImportCleanData.dict_row ReadFile.header r)
  = ImportCleanData.derive (ImportCleanData.dict_row ReadFile.header row) /\
  (forall e,
     ImportCleanData.derive (ImportCleanData.dict_row ReadFile.header r)
     = Raise e -> e = ValueError) /\
  forall f0 f1 f2 f3 f13 : string,
    row !! 0%nat = Some f0 -> row !! 1%nat = Some f1 ->
    row !! 2%nat = Some f2 ->
    row !! 3%nat = Some f3 -> row !! 13%nat = Some f13 ->
    ((exists m,
        ImportCleanData.derive (ImportCleanData.dict_row ReadFile.header r)
        = Ok (Some m))
     <-> gate (Py.strip f1) (Py.strip f0) (Py.strip f3) (Py.strip f13)
         = true /\ readable (Py.strip f2) = true) /\
    (ImportCleanData.derive (ImportCleanData.dict_row ReadFile.header r)
     = Raise ValueError
     <-> Py.truthy (Py.strip f1) = true /\ Py.truthy (Py.strip f0) = true /\
         readable (Py.strip f2) = false).
Proof.
  intros Hr.
  do 15 (destruct row as [|? row]; [by vm_compute in Hr|]).
  injection Hr as <-.
  match goal with
  | |- context [ImportCleanData.dict_row ReadFile.header
                  (?a0 :: ?a1 :: ?a2 :: ?a3 :: ?a4 :: ?a5 :: ?a6
                    :: ?a7 :: ?a8 :: ?a9 :: ?a10 :: ?a11 :: ?a12 :: ?a13
                    :: ?a14 :: row)] =>
      pose proof (derive_gate a0 a1 a2 a3 a4 a5 a6 a7 a8 a9 a10 a11 a12 a13
                              a14) as Hg;
      pose proof (derive_gate_iff a0 a1 a2 a3 a4 a5 a6 a7 a8 a9 a10 a11 a12
                                  a13 a14) as Hiff;
      rewrite (derive_long_line a0 a1 a2 a3 a4 a5 a6 a7 a8 a9 a10 a11 a12
                                a13 a14 row);
      assert (ImportCleanData.derive
                (ImportCleanData.dict_row ReadFile.header
                   [Py.strip a0; Py.strip a1; Py.strip a2; Py.strip a3;
                    Py.strip a4; Py.strip a5; Py.strip a6; Py.strip a7;
                    Py.strip a8; Py.strip a9; Py.strip a10; Py.strip a11;
                    Py.strip a12; Py.strip a13; Py.strip a14])
              = ImportCleanData.derive
                  (ImportCleanData.dict_row ReadFile.header
                     [a0; a1; a2; a3; a4; a5; a6; a7; a8; a9; a10; a11; a12;
                      a13; a14])) as Heq
        by (rewrite !derive_partition_row, !strip_strip; reflexivity)
  end.
  cbv zeta in Hg.
  cbn [fmap list_fmap ReadFile.COLUMNS fst].
  split; [by apply dict_reader_line|].
  change (ImportCleanData.derive
            (ImportCleanData.dict_row ReadFile.header
               [Py.strip s; Py.strip s0; Py.strip s1; Py.strip s2;
                Py.strip s3; Py.strip s4; Py.strip s5; Py.strip s6;
                Py.strip s7; Py.strip s8; Py.strip s9; Py.strip s10;
                Py.strip s11; Py.strip s12; Py.strip s13])
          = ImportCleanData.derive
              (ImportCleanData.dict_row ReadFile.header
                 [s; s0; s1; s2; s3; s4; s5; s6; s7; s8; s9; s10; s11; s12;
                  s13])) in Heq.
  rewrite Heq. split; [done|]. split.
  - intros e He. rewrite He in Hg.
    destruct (_ && _); [|done]. destruct (readable _); [|congruence].
    destruct (Py.truthy _); [|done]. by destruct Hg as (? & ? & _ & _ & ?).
  - intros f0 f1 f2 f3 f13 [= <-] [= <-] [= <-] [= <-] [= <-].
    split; [exact Hiff|].
    destruct (Py.truthy (Py.strip s0)), (Py.truthy (Py.strip s));
      cbn [andb] in Hg;
      try (rewrite Hg; split; [done | by intros (? & ? & _)]).
    destruct (readable (Py.strip s1));
      [|rewrite Hg; split; done].
    destruct (Py.truthy _).
    + destruct Hg as (? & ? & _ & _ & ->).
      split; [done | by intros (_ & _ & ?)].
    + rewrite Hg. split; [done | by intros (_ & _ & ?)].
Qed.

Lemma cleaned_rows_load_like_their_lines_witness :
  exists r,
    cleaned sample_row = Some r /\
    ImportCleanData.derive (ImportCleanData.dict_row ReadFile.header r)
    = ImportCleanData.derive
        (ImportCleanData.dict_row ReadFile.header sample_row).
Proof.
  assert (exists r, cleaned sample_row = Some r) as [r Hr]
    by (eexists; vm_compute; reflexivity).
  exists r. split; [exact Hr|].
  by destruct (cleaned_rows_load_like_their_lines sample_row r Hr)
    as (_ & He & _).
Defined.

(** ** The row-by-row loader over a whole file *)

Section RowRuns.
Import ImportCsvPostgres.
Context {T : Type} `{Database T}.

(** What one line does to the counters and to the statements issued. *)
Lemma row_process_row_cases (st : loader T) (l : list string) :
  let st' := process_row st l in
  ((forall p, derive l <> Ok (Some p)) /\
   imported st' = imported st /\ skipped st' = skipped st + 1 /\
   calls st' = calls st)
  \/ exists sg v,
       derive l = Ok (Some (sg, v)) /\
       ((imported st' = imported st /\ skipped st' = skipped st + 1 /\
         (calls st' = calls st ++ [InsertStaging sg]
          \/ calls st' = calls st ++ [InsertStaging sg; InsertVideos v]))
        \/ (imported st' = imported st + 1 /\
            calls st' = calls st ++ [InsertStaging sg; InsertVideos v] /\
            (skipped st' = skipped st
             \/ (skipped st' = skipped st + 1 /\
                 (imported st + 1) `mod` 1000 = 0 /\
                 exists d, (commit d).2 <> None)))).
Proof.
  unfold process_row, row_body.
  destruct (derive l) as [[[sg v]|]|e] eqn:Hd.
  - right. exists sg, v. split; [done|]. unfold run_execute. simpl.
    destruct (execute (db st) (InsertStaging sg)) as [d1 [e|]]; simpl.
    { left. split; [done|]. split; [done|]. by left. }
    destruct (execute d1 (InsertVideos v)) as [d2 [e|]]; simpl.
    { left. split; [done|]. split; [done|]. right.
      by rewrite <- app_assoc. }
    right. unfold count_and_commit. simpl.
    case_bool_decide as Hmod; simpl.
    + destruct (commit d2) as [d3 [e|]] eqn:Hc; simpl.
      * split; [done|]. split; [by rewrite <- app_assoc|]. right.
        split; [done|]. split; [done|]. exists d2. by rewrite Hc.
      * split; [done|]. split; [by rewrite <- app_assoc|]. by left.
    + split; [done|]. split; [by rewrite <- app_assoc|]. by left.
  - left. simpl. split; [by intros p|]. done.
  - left. simpl. split; [by intros p|]. done.
Qed.

(** A record the loader builds carries the markup of an identifier found
    in its URL. *)
Lemma row_derive_markup (l : list string) (sg : Staging) (v : Video) :
  derive l = Ok (Some (sg, v)) ->
  exists g,
    extract_video_id (source_url v) = Some g /\ Py.truthy g = true /\
    iframe v = iframe_markup g /\
    sg_url sg = source_url v /\ sg_title sg = title v.
Proof.
  unfold derive. case_bool_decide; [done|].
  repeat match goal with
         | |- context [item_strip l ?k] =>
             destruct (item_strip l k) as [?|?]; simpl; [|done]
         end.
  destruct (negb (Py.truthy _) || negb (Py.truthy _)); [done|].
  destruct (extract_video_id _) as [g|] eqn:Hg; simpl; [|done].
  destruct (Py.truthy g) eqn:Ht; simpl; [|done].
  destruct (parse_duration _); simpl; [|done].
  destruct (parse_views _); simpl; [|done].
  intros [= <- <-]. simpl. exists g. by rewrite Hg.
Qed.

End RowRuns.

Section RowTotals.
Import ImportCsvPostgres.
Context {T : Type} `{Database T}.

Lemma thousandth_import (i : Z) :
  0 <= i -> (i + 1) `mod` 1000 = 0 -> (i + 1) `div` 1000 = i `div` 1000 + 1.
Proof. intros Hi Hm. Z.to_euclidean_division_equations. lia. Qed.

Lemma next_import (i : Z) : 0 <= i -> i `div` 1000 <= (i + 1) `div` 1000.
Proof. intros Hi. apply Z.div_le_mono; lia. Qed.

Lemma row_loop_counts (lines : list (list string)) : forall st : loader T,
  0 <= imported st ->
  let st' := foldl process_row st lines in
  let n := Z.of_nat (length lines) in
  imported st <= imported st' <= imported st + n /\
  skipped st <= skipped st' <= skipped st + n /\
  n <= (imported st' - imported st) + (skipped st' - skipped st) /\
  (imported st' - imported st) + (skipped st' - skipped st) - n
    <= imported st' `div` 1000 - imported st `div` 1000 /\
  ((forall d, (commit d).2 = None) ->
   (imported st' - imported st) + (skipped st' - skipped st) = n).
Proof.
  induction lines as [|l lines IH]; intros st Hi.
  - simpl. repeat split; lia.
  - cbn [foldl].
    assert (0 <= imported (process_row st l)) as Hi'.
    { destruct (row_process_row_cases st l)
        as [(_ & -> & _)|(sg & v & _ & [(-> & _)|(-> & _)])]; lia. }
    specialize (IH (process_row st l) Hi'). simpl in IH.
    destruct IH as (I1 & I2 & I3 & I4 & I5).
    pose proof (next_import (imported st) Hi) as Hnext.
    simpl. rewrite Nat2Z.inj_succ.
    destruct (row_process_row_cases st l)
      as [(_ & Ei & Es & _)
         |(sg & v & _ & [(Ei & Es & _)|(Ei & _ & [Es|(Es & Hm & d & Hd)])])];
      rewrite Ei, Es in *.
    + repeat split; try lia. intros Hc. specialize (I5 Hc). lia.
    + repeat split; try lia. intros Hc. specialize (I5 Hc). lia.
    + repeat split; try lia. intros Hc. specialize (I5 Hc). lia.
    + pose proof (thousandth_import (imported st) Hi Hm) as Hth.
      repeat split; try lia. intros Hc. by destruct (Hd (Hc d)).
Qed.

(** X13: the row-by-row loader never reads the first line of the file.
    Whatever the database does, every other line is counted as imported or
    as skipped; a line is counted as both only when the commit that
    follows every thousandth import raises, so the two counts together
    exceed the number of lines by at most one per thousand imports, and
    are exactly the number of lines when no commit raises. *)
Theorem row_loader_counts (d : T) (rows : list (list string)) :
  let result := import_csv_file d rows in
  let n := Z.of_nat (length (tail rows)) in
  let i := result.1.1 in
  let s := result.1.2 in
  0 <= i <= n /\ 0 <= s <= n /\
  n <= i + s <= n + i `div` 1000 /\
  ((forall d', (commit d').2 = None) -> i + s = n) /\
  (i < 1000 -> i + s = n).
Proof.
  intros result n i s.
  destruct (row_loop_counts (tail rows) (start d) ltac:(simpl; lia))
    as (H1 & H2 & H3 & H4 & H5).
  unfold result, i, s, import_csv_file. simpl in *. fold n in H1, H2, H3, H4, H5.
  change (0 `div` 1000) with 0 in H4.
  repeat split; try lia.
  - intros Hc. specialize (H5 Hc). lia.
  - intros Hlt.
    assert (imported (foldl process_row (start d) (tail rows)) `div` 1000 = 0)
      by (apply Z.div_small; lia).
    lia.
Qed.

(** Every statement issued comes from a line after the first one. *)
Lemma row_loop_statements (P : statement -> Prop)
  (lines : list (list string)) : forall st : loader T,
  (forall l sg v,
     l ∈ lines -> derive l = Ok (Some (sg, v)) ->
     P (InsertStaging sg) /\ P (InsertVideos v)) ->
  Forall P (calls st) ->
  Forall P (calls (foldl process_row st lines)).
Proof.
  induction lines as [|l lines IH]; intros st HP Hc; [done|].
  cbn [foldl]. apply IH.
  - intros l' sg v Hl'. apply HP. by right.
  - destruct (row_process_row_cases st l)
      as [(_ & _ & _ & ->)
         |(sg & v & Hd & [(_ & _ & [->| ->])|(_ & -> & _)])]; [done|..];
      destruct (HP l sg v ltac:(by left) Hd) as [Hs Hv];
      apply Forall_app; split; try done; by repeat constructor.
Qed.

(** X14: whatever the database does, every statement the row-by-row
    loader issues comes from a line after the first one that has a title
    and a URL with an identifier in it; the markup stored with a video is
    the markup of that identifier, never of the text None. *)
Theorem row_loader_statements (d : T) (rows : list (list string)) :
  let st := (import_csv_file d rows).2 in
  forall q, q ∈ calls st ->
    exists l sg v,
      l ∈ tail rows /\ derive l = Ok (Some (sg, v)) /\
      (q = InsertStaging sg \/ q = InsertVideos v) /\
      Py.truthy (title v) = true /\ Py.truthy (source_url v) = true /\
      exists g,
        extract_video_id (source_url v) = Some g /\ Py.truthy g = true /\
        iframe v = iframe_markup g.
Proof.
  intros st q Hq. unfold st, import_csv_file in Hq. simpl in Hq.
  revert q Hq. apply Forall_forall.
  apply row_loop_statements; [|done].
  intros l sg v Hl Hd.
  destruct (row_derive_some l sg v Hd) as (Ht & Hu & _).
  destruct (row_derive_markup l sg v Hd) as (g & Hg & Htg & Hi & _).
  split; exists l, sg, v; repeat split; eauto.
Qed.

End RowTotals.

Lemma row_loader_counts_witness :
  let result :=
    ImportCsvPostgres.import_csv_file
      (S := list ImportCsvPostgres.statement) []
      [ReadFile.header; line_with_secondary; short_row] in
  result.1.1 + result.1.2 = 2.
Proof.
  pose proof (row_loader_counts
                (T := list ImportCsvPostgres.statement) []
                [ReadFile.header; line_with_secondary; short_row])
    as (_ & _ & _ & Hc & _).
  apply Hc. reflexivity.
Defined.

Lemma row_loader_statements_witness :
  Forall
    (fun q =>
       forall v, q = ImportCsvPostgres.InsertVideos v ->
                 ImportCsvPostgres.iframe v = iframe_markup "abc123")
    (ImportCsvPostgres.calls
       (ImportCsvPostgres.import_csv_file
          (S := list ImportCsvPostgres.statement) []
          [ReadFile.header; line_with_secondary]).2).
Proof.
  apply Forall_forall. intros q Hq v ->.
  destruct (row_loader_statements
              (T := list ImportCsvPostgres.statement) []
              [ReadFile.header; line_with_secondary] _ Hq)
    as (l & sg & v' & Hl & Hd & Hcase & _ & _ & g & Hg & _ & Hi).
  simpl in Hl. apply list_elem_of_singleton in Hl. subst l.
  vm_compute in Hd. injection Hd as <- <-.
  destruct Hcase as [Hcase|Hcase]; [discriminate Hcase|].
  injection Hcase as ->. reflexivity.
Defined.

(** ** The two [parse_views] *)

Section Views.

Lemma int_isspace_isspace c : Py.int_isspace c = true -> Py.isspace c = true.
Proof.
  destruct c as [[] [] [] [] [] [] [] []]; intros Hc;
    first [reflexivity | vm_compute in Hc; discriminate Hc].
Qed.

Lemma int_lstrip_split s :
  exists pre, s = pre +:+ Py.int_lstrip s /\ all_space pre = true.
Proof.
  induction s as [|c s IH]; simpl.
  - by exists EmptyString.
  - destruct (Py.int_isspace c) eqn:E.
    + destruct IH as (pre & Hs & Hp). exists (String c pre).
      rewrite append_cons. simpl.
      rewrite (int_isspace_isspace c E), Hp, <- Hs. done.
    + by exists EmptyString.
Qed.

Lemma int_rstrip_split s :
  exists post, s = Py.int_rstrip s +:+ post /\ all_space post = true.
Proof.
  induction s as [|c s IH]; simpl.
  - by exists EmptyString.
  - destruct IH as (post & Hs & Hp).
    destruct (Py.int_rstrip s) as [|a r] eqn:Er.
    + rewrite append_empty_l in Hs. subst post.
      destruct (Py.int_isspace c) eqn:E.
      * exists (String c s). simpl.
        by rewrite (int_isspace_isspace c E), Hp.
      * exists s. by rewrite append_cons.
    + exists post. by rewrite append_cons, <- Hs.
Qed.

Lemma lstrip_spaces pre s :
  all_space pre = true -> Py.lstrip (pre +:+ s) = Py.lstrip s.
Proof.
  induction pre as [|c pre IH]; [done|]. intros Hp. simpl in Hp.
  apply andb_prop in Hp as [Hc Hp].
  rewrite append_cons. simpl. rewrite Hc. auto.
Qed.

Lemma rstrip_spaces post :
  all_space post = true -> Py.rstrip post = EmptyString.
Proof.
  induction post as [|c post IH]; [done|]. simpl.
  intros [Hc Hp]%andb_prop. by rewrite (IH Hp), Hc.
Qed.

Lemma rstrip_append_spaces s post :
  all_space post = true -> Py.rstrip (s +:+ post) = Py.rstrip s.
Proof.
  intros Hp. induction s as [|c s IH].
  - rewrite append_empty_l. by apply rstrip_spaces.
  - rewrite append_cons. simpl. by rewrite IH.
Qed.

Lemma int_lstrip_fixed t :
  (forall c, first_char t = Some c -> Py.isspace c = false) ->
  Py.int_lstrip t = t.
Proof.
  destruct t as [|a t]; [done|]. simpl. intros Hc.
  destruct (Py.int_isspace a) eqn:E; [|done].
  apply int_isspace_isspace in E. by rewrite (Hc a) in E.
Qed.

Lemma int_rstrip_fixed t :
  (forall c, last_char t = Some c -> Py.isspace c = false) ->
  Py.int_rstrip t = t.
Proof.
  induction t as [|a t IH]; [done|]. intros Hc. simpl.
  destruct t as [|b t].
  - simpl. destruct (Py.int_isspace a) eqn:E; [|done].
    apply int_isspace_isspace in E. by rewrite (Hc a) in E.
  - rewrite IH by (intros c Hl; by apply Hc). done.
Qed.

Lemma digit_isdigit c v : Py.digit c = Some v -> Py.isdigit c = true.
Proof. unfold Py.isdigit. by intros ->. Qed.

(** An accepted run of digits ends in a digit. *)
Lemma int_digits_last (k : nat) : forall s acc n,
  (String.length s <= k)%nat ->
  Py.int_digits acc s = Some n ->
  forall c, last_char s = Some c -> Py.isdigit c = true.
Proof.
  induction k as [|k IH]; intros s acc n Hk; destruct s as [|a s];
    try done; simpl in Hk; [lia|].
  cbn [Py.int_digits]. destruct (Ascii.eqb a "_").
  - destruct s as [|d s]; [done|].
    destruct (Py.digit d) as [v|] eqn:Hd; [|done].
    intros Hn c. destruct s as [|e s].
    + simpl. intros [= <-]. by eapply digit_isdigit.
    + intros Hl.
      apply (IH (String e s) (10 * acc + v) n); [simpl in *; lia|done|done].
  - destruct (Py.digit a) as [v|] eqn:Ha; [|done].
    intros Hn c. destruct s as [|e s].
    + simpl. intros [= <-]. by eapply digit_isdigit.
    + intros Hl.
      apply (IH (String e s) (10 * acc + v) n); [simpl in *; lia|done|done].
Qed.

Lemma int_unsigned_last s n :
  Py.int_unsigned s = Some n ->
  Py.truthy s = true /\
  forall c, last_char s = Some c -> Py.isdigit c = true.
Proof.
  destruct s as [|a s]; [done|]. simpl.
  destruct (Py.digit a) as [v|] eqn:Ha; [|done].
  intros Hn. split; [done|]. intros c. destruct s as [|e s].
  - intros [= <-]. by eapply digit_isdigit.
  - intros Hl.
    by apply (int_digits_last (String.length (String e s)) (String e s) v n).
Qed.

Lemma int_signed_cases c s n :
  Py.int_signed (String c s) = Some n ->
  Py.isspace c = false /\
  ((exists m, Py.int_unsigned s = Some m)
   \/ Py.int_unsigned (String c s) = Some n).
Proof.
  destruct c as [[] [] [] [] [] [] [] []]; intros Hn;
    try (vm_compute in Hn; discriminate Hn);
    (split; [reflexivity|]);
    first [ right; exact Hn
          | left; simpl in Hn; destruct (Py.int_unsigned s);
            [eauto | discriminate Hn] ].
Qed.

(** A text [int] accepts, once its blanks are skipped, begins and ends
    with a character that is no whitespace. *)
Lemma int_signed_ends s n :
  Py.int_signed s = Some n ->
  Py.truthy s = true /\
  (forall c, first_char s = Some c -> Py.isspace c = false) /\
  (forall c, last_char s = Some c -> Py.isspace c = false).
Proof.
  destruct s as [|a s]; [done|]. intros Hn.
  destruct (int_signed_cases a s n Hn) as [Ha Hcase].
  split; [done|]. split; [by intros c [= <-]|].
  intros c Hl. destruct Hcase as [[m Hm]|Hu].
  - destruct (int_unsigned_last s m Hm) as [Ht Hlast].
    destruct s as [|e s]; [done|].
    destruct (digit_char c (Hlast c Hl)) as [Hsp _]. done.
  - destruct (int_unsigned_last _ n Hu) as [_ Hlast].
    destruct (digit_char c (Hlast c Hl)) as [Hsp _]. done.
Qed.

(** Stripping a text before [int] reads it does not change what is
    read. *)
Lemma int_strip t n : Py.int t = Some n -> Py.int (Py.strip t) = Some n.
Proof.
  unfold Py.int. cbv zeta. intros Hn.
  destruct (int_lstrip_split t) as (pre & Hpre & Hsp).
  destruct (int_rstrip_split (Py.int_lstrip t)) as (post & Hpost & Hspost).
  set (core := Py.int_rstrip (Py.int_lstrip t)) in *.
  destruct (bool_decide (Py.count_digits core <= Py.int_max_str_digits))
    eqn:Hlimit; [|done].
  destruct (int_signed_ends _ n Hn) as (Ht & Hfirst & Hlast).
  assert (Py.strip t = core) as Hstrip.
  { unfold Py.strip. rewrite Hpre, (lstrip_spaces pre _ Hsp), Hpost.
    assert (Py.lstrip (core +:+ post) = core +:+ post) as ->.
    { apply lstrip_fixed. destruct core as [|a core]; [done|].
      rewrite append_cons. simpl. intros c [= <-]. by apply Hfirst. }
    rewrite (rstrip_append_spaces core post Hspost).
    by apply rstrip_fixed. }
  rewrite Hstrip, (int_lstrip_fixed core Hfirst), (int_rstrip_fixed core Hlast).
  by rewrite Hlimit.
Qed.

End Views.

(** X5: wherever [parse_views] of import_csv_postgres.py returns an
    integer, [parse_views] of import-clean-data.py returns the same
    integer; and the only exception the former raises is [ValueError]. *)
Theorem parse_views_of_the_batch_loader_extends (s : string) :
  (forall n,
     ImportCsvPostgres.parse_views s = Ok n ->
     ImportCleanData.parse_views s = Ok n) /\
  (forall e,
     ImportCsvPostgres.parse_views s = Raise e ->
     e = ValueError /\ s <> EmptyString /\
     Py.int (Py.replace_comma s) = None).
Proof.
  rewrite parse_views_value.
  unfold ImportCsvPostgres.parse_views, int_of.
  destruct s as [|a s]; [by split|]. simpl negb. cbv iota.
  destruct (Py.int (Py.replace_comma (String a s))) as [m|] eqn:Hm.
  - split; [|done]. intros n [= <-]. by rewrite (int_strip _ m Hm).
  - split; [done|]. by intros e [= <-].
Qed.

Lemma parse_views_of_the_batch_loader_extends_witness :
  ImportCleanData.parse_views " 1,234 " = Ok 1234.
Proof.
  destruct (parse_views_of_the_batch_loader_extends " 1,234 ") as [H _].
  apply H. reflexivity.
Defined.

(** ** The markup and its identifier *)

Section MarkupIdentifier.

Lemma append_cancel_l (p x y : string) : p +:+ x = p +:+ y -> x = y.
Proof.
  induction p as [|c p IH]; [done|]. rewrite !append_cons.
  intros [= Heq]. by apply IH.
Qed.

Lemma append_cancel_r (q : string) : forall x y : string,
  x +:+ q = y +:+ q -> x = y.
Proof.
  induction x as [|c x IH]; intros [|d y] Heq.
  - done.
  - apply (f_equal String.length) in Heq.
    rewrite append_empty_l, append_cons in Heq. simpl in Heq.
    rewrite length_append in Heq. lia.
  - apply (f_equal String.length) in Heq.
    rewrite append_empty_l, append_cons in Heq. simpl in Heq.
    rewrite length_append in Heq. lia.
  - rewrite !append_cons in Heq. injection Heq as -> Heq.
    f_equal. by apply IH.
Qed.

Lemma iframe_markup_injective v1 v2 :
  iframe_markup v1 = iframe_markup v2 -> v1 = v2.
Proof.
  unfold iframe_markup. intros Heq.
  do 3 apply append_cancel_l in Heq. by apply append_cancel_r in Heq.
Qed.

End MarkupIdentifier.

(** X15: the markup determines the identifier: in both loaders two
    identifiers with the same markup are the same identifier, and in
    import-clean-data.py no identifier has the markup none stands for in
    the record of a row without identifier. *)
Theorem markup_determines_the_identifier (a b : string) :
  (ImportCsvPostgres.construct_iframe (Some a)
   = ImportCsvPostgres.construct_iframe (Some b) -> a = b) /\
  (a <> EmptyString ->
   ImportCleanData.construct_iframe (Some a)
   = ImportCleanData.construct_iframe (Some b) -> a = b) /\
  (a <> EmptyString ->
   ImportCleanData.construct_iframe (Some a)
   <> ImportCleanData.construct_iframe None).
Proof.
  split; [|split].
  - unfold ImportCsvPostgres.construct_iframe. simpl.
    apply iframe_markup_injective.
  - intros Ha. unfold ImportCleanData.construct_iframe.
    destruct a as [|c a]; [done|]. destruct b as [|d b]; [done|]. simpl.
    intros Heq. apply iframe_markup_injective. congruence.
  - intros Ha. destruct a; [done|]. done.
Qed.

Lemma markup_determines_the_identifier_witness :
  ImportCleanData.construct_iframe (Some "abc123")
  <> ImportCleanData.construct_iframe None.
Proof.
  destruct (markup_determines_the_identifier "abc123" "abc123") as (_ & _ & H).
  apply H. discriminate.
Defined.
